(** * DPDThermostat: a shallow embedding of ESPResSo++'s DPD thermostat

    The C++ unit [DPDThermostat.cpp] implements a pairwise dissipative
    particle dynamics thermostat: a scalar ("standard") kernel, a transverse
    kernel, the prefactor calculator [initialize] and the restart correction
    [heatUp] / [coolDown].

    The C++ type [real] is read as the mathematical reals [R]: every
    statement below is a statement of exact real arithmetic.  The branch
    [if (dist2 < current_cutoff_sqr)] is the decision [Rlt_dec]. *)

From Stdlib Require Import Reals Lra Psatz List String Bool Arith.
Import ListNotations.

Open Scope R_scope.

(** ** Real3D: the three-component vector of the code base

    Only the operations the thermostat calls are embedded: component access
    [r[i]], difference, [sqr] (squared length), the scalar product written
    [a * b] in the source, scaling by a real, [r /= d], [+=] and [-=]. *)

Record Real3D : Type := mkReal3D { c0 : R; c1 : R; c2 : R }.

Module V.

Definition zero : Real3D := mkReal3D 0 0 0.

Definition add (a b : Real3D) : Real3D :=
  mkReal3D (c0 a + c0 b) (c1 a + c1 b) (c2 a + c2 b).

Definition sub (a b : Real3D) : Real3D :=
  mkReal3D (c0 a - c0 b) (c1 a - c1 b) (c2 a - c2 b).

Definition neg (a : Real3D) : Real3D :=
  mkReal3D (- c0 a) (- c1 a) (- c2 a).

(** [a * b] on two vectors: the scalar product. *)
Definition dot (a b : Real3D) : R :=
  c0 a * c0 b + c1 a * c1 b + c2 a * c2 b.

(** [r.sqr()]. *)
Definition sqr (a : Real3D) : R := dot a a.

(** [s * v] and [v *= s]. *)
Definition scale (s : R) (a : Real3D) : Real3D :=
  mkReal3D (s * c0 a) (s * c1 a) (s * c2 a).

(** [v /= d]. *)
Definition div (a : Real3D) (d : R) : Real3D :=
  mkReal3D (c0 a / d) (c1 a / d) (c2 a / d).

End V.

(** ** Particles and their storage

    A pair of the Verlet list holds two pointers to particles.  Particle
    memory is a total map from particle references to particle records, and
    the kernels update it in place, one write after the other, so that two
    references to the same particle would see each other's writes. *)

Record Particle : Type := mkParticle {
  position : Real3D;
  velocity : Real3D;
  force : Real3D
}.

Definition ParticleRef : Type := nat.
Definition Storage : Type := ParticleRef -> Particle.

Definition set_force (p : Particle) (f : Real3D) : Particle :=
  mkParticle (position p) (velocity p) f.

Definition write (st : Storage) (p : ParticleRef) (v : Particle) : Storage :=
  fun q => if Nat.eqb q p then v else st q.

(** [p.force() += f] *)
Definition force_add (st : Storage) (p : ParticleRef) (f : Real3D) : Storage :=
  write st p (set_force (st p) (V.add (force (st p)) f)).

(** [p.force() -= f] *)
Definition force_sub (st : Storage) (p : ParticleRef) (f : Real3D) : Storage :=
  write st p (set_force (st p) (V.sub (force (st p)) f)).

(** ** The random source

    [esutil::RNG] is used through its call operator only: each call returns the next
    uniform variate and advances the generator.  The generator is the
    sequence of its future draws together with the number already taken. *)

Record RNG : Type := mkRNG { draws : nat -> R; taken : nat }.

Definition rng_call (g : RNG) : R * RNG :=
  (draws g (taken g), mkRNG (draws g) (S (taken g))).

(** ** Collaborators: System and VerletList *)

Record System : Type := mkSystem {
  getSkin : R;
  sys_rng : option RNG;          (* [system->rng], a possibly null shared_ptr *)
  ifShear : bool;
  ifViscosity : bool;
  dyadicP_xz : R;
  dyadicP_zx : R;
  storage : Storage
}.

Record VerletList : Type := mkVerletList {
  getVerletCutoff : R;
  getPairs : list (ParticleRef * ParticleRef)
}.

Definition set_storage (s : System) (st : Storage) : System :=
  mkSystem (getSkin s) (sys_rng s) (ifShear s) (ifViscosity s)
           (dyadicP_xz s) (dyadicP_zx s) st.

Definition set_dyadic (s : System) (xz zx : R) : System :=
  mkSystem (getSkin s) (sys_rng s) (ifShear s) (ifViscosity s)
           xz zx (storage s).

(** ** The thermostat object

    The data members of [DPDThermostat].  [rng] is the generator the member
    [rng] designates after construction (the constructor refuses a null
    one), so every draw of this unit goes through it. *)

Record DPDThermostat : Type := mkDPD {
  gamma : R;
  tgamma : R;
  temperature : R;
  current_cutoff : R;
  current_cutoff_sqr : R;
  pref1 : R;
  pref2 : R;
  pref3 : R;
  pref4 : R;
  pref2buffer : R;
  pref4buffer : R;
  rng : RNG
}.

(** The members of plain type [real] that the constructor body does not
    assign: a freshly allocated object holds whatever the memory held. *)
Record Uninit : Type := mkUninit {
  u_tgamma : R;
  u_pref1 : R;
  u_pref2 : R;
  u_pref3 : R;
  u_pref4 : R;
  u_pref2buffer : R;
  u_pref4buffer : R
}.

(** The constructor.  [inl msg] is [throw std::runtime_error(msg)]. *)
Definition DPDThermostat_new (raw : Uninit) (system : System) (verletList : VerletList)
  : string + DPDThermostat :=
  let gamma := 0 in
  let temperature := 0 in
  let current_cutoff := getVerletCutoff verletList - getSkin system in
  let current_cutoff_sqr := current_cutoff * current_cutoff in
  match sys_rng system with
  | None => inl "system has no RNG"%string
  | Some g =>
      inr (mkDPD gamma (u_tgamma raw) temperature
                 current_cutoff current_cutoff_sqr
                 (u_pref1 raw) (u_pref2 raw) (u_pref3 raw) (u_pref4 raw)
                 (u_pref2buffer raw) (u_pref4buffer raw) g)
  end.

Definition setGamma (_gamma : R) (t : DPDThermostat) : DPDThermostat :=
  mkDPD _gamma (tgamma t) (temperature t) (current_cutoff t) (current_cutoff_sqr t)
        (pref1 t) (pref2 t) (pref3 t) (pref4 t) (pref2buffer t) (pref4buffer t) (rng t).

Definition getGamma (t : DPDThermostat) : R := gamma t.

Definition setTGamma (_tgamma : R) (t : DPDThermostat) : DPDThermostat :=
  mkDPD (gamma t) _tgamma (temperature t) (current_cutoff t) (current_cutoff_sqr t)
        (pref1 t) (pref2 t) (pref3 t) (pref4 t) (pref2buffer t) (pref4buffer t) (rng t).

Definition getTGamma (t : DPDThermostat) : R := tgamma t.

Definition setTemperature (_temperature : R) (t : DPDThermostat) : DPDThermostat :=
  mkDPD (gamma t) (tgamma t) _temperature (current_cutoff t) (current_cutoff_sqr t)
        (pref1 t) (pref2 t) (pref3 t) (pref4 t) (pref2buffer t) (pref4buffer t) (rng t).

Definition getTemperature (t : DPDThermostat) : R := temperature t.

Definition set_rng (t : DPDThermostat) (g : RNG) : DPDThermostat :=
  mkDPD (gamma t) (tgamma t) (temperature t) (current_cutoff t) (current_cutoff_sqr t)
        (pref1 t) (pref2 t) (pref3 t) (pref4 t) (pref2buffer t) (pref4buffer t) g.

(** [initialize]: the cutoff state and the four prefactors, from the current
    verlet cutoff, skin and time step of the integrator. *)
Definition initialize (verletList : VerletList) (system : System) (timestep : R)
  (t : DPDThermostat) : DPDThermostat :=
  let current_cutoff := getVerletCutoff verletList - getSkin system in
  let current_cutoff_sqr := current_cutoff * current_cutoff in
  let pref1 := gamma t in
  let pref2 := sqrt (24 * temperature t * gamma t / timestep) in
  let pref3 := tgamma t in
  let pref4 := sqrt (24 * temperature t * tgamma t / timestep) in
  mkDPD (gamma t) (tgamma t) (temperature t) current_cutoff current_cutoff_sqr
        pref1 pref2 pref3 pref4 (pref2buffer t) (pref4buffer t) (rng t).

Definition heatUp (t : DPDThermostat) : DPDThermostat :=
  let pref2buffer := pref2 t in
  let pref2 := pref2 t * sqrt 3 in
  let pref4buffer := pref4 t in
  let pref4 := pref4 t * sqrt 3 in
  mkDPD (gamma t) (tgamma t) (temperature t) (current_cutoff t) (current_cutoff_sqr t)
        (pref1 t) pref2 (pref3 t) pref4 pref2buffer pref4buffer (rng t).

Definition coolDown (t : DPDThermostat) : DPDThermostat :=
  mkDPD (gamma t) (tgamma t) (temperature t) (current_cutoff t) (current_cutoff_sqr t)
        (pref1 t) (pref2buffer t) (pref3 t) (pref4buffer t)
        (pref2buffer t) (pref4buffer t) (rng t).

(** ** The running simulation

    The kernels are member functions: they read the thermostat's cutoff
    state and prefactors, draw from its generator, and write particle forces
    and the stress accumulators of the system. *)

Record World : Type := mkWorld { thermo : DPDThermostat; sys : System }.

(** The separation vector [r = p1.position() - p2.position()] and its
    squared length [dist2 = r.sqr()], as both kernels compute them. *)
Definition pair_r (w : World) (p1 p2 : ParticleRef) : Real3D :=
  V.sub (position (storage (sys w) p1)) (position (storage (sys w) p2)).

Definition pair_dist2 (w : World) (p1 p2 : ParticleRef) : R :=
  V.sqr (pair_r w p1 p2).

(** The stress analysis at the end of both kernels. *)
Definition accumulate_stress (s : System) (r f : Real3D) : System :=
  if ifShear s && ifViscosity s
  then set_dyadic s (dyadicP_xz s + c0 r * c2 f) (dyadicP_zx s + c2 r * c0 f)
  else s.

(** [frictionThermoDPD]: the standard DPD thermostat. *)
Definition frictionThermoDPD (p1 p2 : ParticleRef) (w : World) : World :=
  let this := thermo w in
  let system := sys w in
  let r := V.sub (position (storage system p1)) (position (storage system p2)) in
  let dist2 := V.sqr r in
  if Rlt_dec dist2 (current_cutoff_sqr this) then
    let dist := sqrt dist2 in
    let omega := 1 - dist / current_cutoff this in
    let omega2 := omega * omega in
    let r := V.div r dist in
    let veldiff :=
      V.dot (V.sub (velocity (storage system p1)) (velocity (storage system p2))) r in
    let friction := pref1 this * omega2 * veldiff in
    let (u, g) := rng_call (rng this) in
    let r0 := u - 0.5 in
    let noise := pref2 this * omega * r0 in
    let f := V.scale (noise - friction) r in
    let st := force_add (storage system) p1 f in
    let st := force_sub st p2 f in
    mkWorld (set_rng this g) (accumulate_stress (set_storage system st) r f)
  else w.

(** The projector product [(I - r r_T) v], written out per component as in
    the source. *)
Definition project (r v : Real3D) : Real3D :=
  mkReal3D
    ((1 - c0 r * c0 r) * c0 v - c0 r * c1 r * c1 v - c0 r * c2 r * c2 v)
    ((1 - c1 r * c1 r) * c1 v - c1 r * c0 r * c0 v - c1 r * c2 r * c2 v)
    ((1 - c2 r * c2 r) * c2 v - c2 r * c0 r * c0 v - c2 r * c1 r * c1 v).

(** Three successive draws, each recentred, in the order
    [noisevec[0]], [noisevec[1]], [noisevec[2]]. *)
Definition draw_noisevec (g : RNG) : Real3D * RNG :=
  let (u0, g) := rng_call g in
  let (u1, g) := rng_call g in
  let (u2, g) := rng_call g in
  (mkReal3D (u0 - 0.5) (u1 - 0.5) (u2 - 0.5), g).

(** [frictionThermoTDPD]: the transverse DPD thermostat.  The source carries
    both sides of an unresolved merge; they differ in layout and in the
    declared type of [veldiff] only, which is used as a vector on both. *)
Definition frictionThermoTDPD (p1 p2 : ParticleRef) (w : World) : World :=
  let this := thermo w in
  let system := sys w in
  let r := V.sub (position (storage system p1)) (position (storage system p2)) in
  let dist2 := V.sqr r in
  if Rlt_dec dist2 (current_cutoff_sqr this) then
    let dist := sqrt dist2 in
    let omega := 1 - dist / current_cutoff this in
    let omega2 := omega * omega in
    let r := V.div r dist in
    let (noisevec, g) := draw_noisevec (rng this) in
    let veldiff := V.sub (velocity (storage system p1)) (velocity (storage system p2)) in
    let f_damp := project r veldiff in
    let f_rand := project r noisevec in
    let f_damp := V.scale (pref3 this * omega2) f_damp in
    let f_rand := V.scale (pref4 this * omega) f_rand in
    let f_tmp := V.sub f_rand f_damp in
    let st := force_add (storage system) p1 f_tmp in
    let st := force_sub st p2 f_tmp in
    mkWorld (set_rng this g) (accumulate_stress (set_storage system st) r f_tmp)
  else w.

(** [thermalize]: ghost velocities are refreshed by the storage (a
    collaborator, [updateGhostsV]), then every pair of the Verlet list is
    visited. *)
Definition thermalize_pair (w : World) (pr : ParticleRef * ParticleRef) : World :=
  let (p1, p2) := pr in
  let w := if Rgt_dec (gamma (thermo w)) 0 then frictionThermoDPD p1 p2 w else w in
  if Rgt_dec (tgamma (thermo w)) 0 then frictionThermoTDPD p1 p2 w else w.

Section Thermalize.

Variable updateGhostsV : Storage -> Storage.

Definition thermalize (verletList : VerletList) (w : World) : World :=
  let w := mkWorld (thermo w) (set_storage (sys w) (updateGhostsV (storage (sys w)))) in
  fold_left thermalize_pair (getPairs verletList) w.

End Thermalize.

(** ** Local quantities of a pair, for the statements below *)

(** The unit separation vector, [r] after [r /= dist]. *)
Definition rhat (w : World) (p1 p2 : ParticleRef) : Real3D :=
  V.div (pair_r w p1 p2) (sqrt (pair_dist2 w p1 p2)).

(** The weight [omega = 1 - dist / current_cutoff]. *)
Definition omega (w : World) (p1 p2 : ParticleRef) : R :=
  1 - sqrt (pair_dist2 w p1 p2) / current_cutoff (thermo w).

Definition pair_veldiff (w : World) (p1 p2 : ParticleRef) : Real3D :=
  V.sub (velocity (storage (sys w) p1)) (velocity (storage (sys w) p2)).

(** The damping and random parts of the transverse kernel after their
    scaling, i.e. the final values of the locals [f_damp] and [f_rand]. *)
Definition TDPD_f_damp (w : World) (p1 p2 : ParticleRef) : Real3D :=
  V.scale (pref3 (thermo w) * (omega w p1 p2 * omega w p1 p2))
          (project (rhat w p1 p2) (pair_veldiff w p1 p2)).

Definition TDPD_f_rand (w : World) (p1 p2 : ParticleRef) : Real3D :=
  V.scale (pref4 (thermo w) * omega w p1 p2)
          (project (rhat w p1 p2) (fst (draw_noisevec (rng (thermo w))))).

(** The force the scalar kernel applies: the local [f]. *)
Definition DPD_f (w : World) (p1 p2 : ParticleRef) : Real3D :=
  let r := rhat w p1 p2 in
  let friction :=
    pref1 (thermo w) * (omega w p1 p2 * omega w p1 p2) * V.dot (pair_veldiff w p1 p2) r in
  let noise := pref2 (thermo w) * omega w p1 p2 * (fst (rng_call (rng (thermo w))) - 0.5) in
  V.scale (noise - friction) r.

(** What one particle's force gained during a step from [w] to [w']. *)
Definition force_gain (w w' : World) (p : ParticleRef) : Real3D :=
  V.sub (force (storage (sys w') p)) (force (storage (sys w) p)).

(** The writes both kernels end with: the generator left at [g], [+f] on
    [p1], then [-f] on [p2], then the stress analysis with the unit vector
    [r]. *)
Definition apply_pair_force (w : World) (p1 p2 : ParticleRef) (g : RNG) (r f : Real3D)
  : World :=
  let st := force_add (storage (sys w)) p1 f in
  let st := force_sub st p2 f in
  mkWorld (set_rng (thermo w) g) (accumulate_stress (set_storage (sys w) st) r f).

(** A pair receives equal and opposite forces between [w] and [w']: one
    vector [f] is added to [p1] and its negative to [p2]. *)
Definition equal_and_opposite (w w' : World) (p1 p2 : ParticleRef) : Prop :=
  exists f : Real3D,
    force (storage (sys w') p1) = V.add (force (storage (sys w) p1)) f /\
    force (storage (sys w') p2) = V.add (force (storage (sys w) p2)) (V.neg f).

(** ** A concrete configuration

    Scenario A of the design document: two particles at (0,0,0) and
    (0.5,0,0) with velocities (1,0,0) and (0,0,0), cutoff 1, [gamma = 1],
    [tgamma = 1], temperature 1, time step 0.01, and a generator whose every
    draw is 0.5.  The verlet cutoff is 1.3 and the skin 0.3. *)

Module Example.

Definition particleA : Particle :=
  mkParticle (mkReal3D 0 0 0) (mkReal3D 1 0 0) (mkReal3D 0 0 0).

Definition particleB : Particle :=
  mkParticle (mkReal3D 0.5 0 0) (mkReal3D 0 0 0) (mkReal3D 0 0 0).

(** A third particle at (2,0,0), beyond the cutoff of the first. *)
Definition particleFar : Particle :=
  mkParticle (mkReal3D 2 0 0) (mkReal3D 0 0 0) (mkReal3D 0 0 0).

Definition particles : Storage :=
  fun p => match p with
           | O => particleA
           | S O => particleB
           | _ => particleFar
           end.

Definition generator : RNG := mkRNG (fun _ => 0.5) 0.

Definition system : System :=
  mkSystem 0.3 (Some generator) false false 0 0 particles.

Definition system_without_rng : System :=
  mkSystem 0.3 None false false 0 0 particles.

Definition verletList : VerletList := mkVerletList 1.3 [(0%nat, 1%nat)].

(** A neighbour list whose cutoff is smaller than the skin. *)
Definition verletList_short : VerletList := mkVerletList 0.2 [(0%nat, 1%nat)].

Definition raw : Uninit := mkUninit 7 0 0 0 0 0 0.

Definition thermostat : DPDThermostat :=
  initialize verletList system 0.01
    (setTemperature 1 (setTGamma 1 (setGamma 1
       (mkDPD 0 7 0 1 1 0 0 0 0 0 0 generator)))).

Definition world : World := mkWorld thermostat system.

End Example.

(** ** The documented formulas

    The design document states the pair forces in vector notation.  These
    definitions follow its wording, not the code; the theorems further down
    relate the two. *)

Module Spec.

(** [omega(r) = 1 - r / cutoff]. *)
Definition omega (cutoff dist : R) : R := 1 - dist / cutoff.

(** [rhat = (p1.pos - p2.pos) / dist]. *)
Definition unit_vector (x1 x2 : Real3D) (dist : R) : Real3D :=
  V.div (V.sub x1 x2) dist.

(** Scalar model: [f = (noise - friction) rhat] with
    [friction = pref1 omega^2 ((v1 - v2) . rhat)] and
    [noise = pref2 omega (u - 0.5)]. *)
Definition scalar_force (pref1 pref2 cutoff : R) (x1 x2 v1 v2 : Real3D) (u : R)
  : Real3D :=
  let dist := sqrt (V.sqr (V.sub x1 x2)) in
  let om := omega cutoff dist in
  let rh := unit_vector x1 x2 dist in
  V.scale (pref2 * om * (u - 0.5) - pref1 * (om * om) * V.dot (V.sub v1 v2) rh) rh.

(** The transverse projector [P v = v - rhat (rhat . v)]. *)
Definition P (rh v : Real3D) : Real3D :=
  V.sub v (V.scale (V.dot rh v) rh).

(** Transverse model: [f_damp = pref3 omega^2 (P veldiff)]. *)
Definition f_damp (pref3 cutoff : R) (x1 x2 v1 v2 : Real3D) : Real3D :=
  let dist := sqrt (V.sqr (V.sub x1 x2)) in
  let om := omega cutoff dist in
  V.scale (pref3 * (om * om)) (P (unit_vector x1 x2 dist) (V.sub v1 v2)).

(** Transverse model: [f_rand = pref4 omega (P n)]. *)
Definition f_rand (pref4 cutoff : R) (x1 x2 n : Real3D) : Real3D :=
  let dist := sqrt (V.sqr (V.sub x1 x2)) in
  let om := omega cutoff dist in
  V.scale (pref4 * om) (P (unit_vector x1 x2 dist) n).

(** The noise vector of three recentred draws [u0], [u1], [u2]. *)
Definition noise_vector (u0 u1 u2 : R) : Real3D :=
  mkReal3D (u0 - 0.5) (u1 - 0.5) (u2 - 0.5).

End Spec.

(** ** Quantities of a whole pass *)


(** The guard [dist2 < current_cutoff_sqr] of both kernels, as a boolean. *)
Definition in_range (w : World) (pr : ParticleRef * ParticleRef) : bool :=
  if Rlt_dec (pair_dist2 w (fst pr) (snd pr)) (current_cutoff_sqr (thermo w))
  then true else false.

(** The draws [thermalize] spends on one pair inside the cutoff: one when
    the scalar kernel is dispatched, three more when the transverse one is. *)
Definition draws_per_pair (t : DPDThermostat) : nat :=
  ((if Rgt_dec (gamma t) 0 then 1 else 0) + (if Rgt_dec (tgamma t) 0 then 3 else 0))%nat.

(** What a kernel call may change between [w] and [w']: the position of the
    generator, particle forces and the two stress accumulators.  Everything
    else (the draw sequence, the other members of the thermostat, the
    system's skin, generator handle and flags, positions and velocities)
    is the same. *)
Definition frame (w w' : World) : Prop :=
  thermo w' = set_rng (thermo w) (rng (thermo w')) /\
  draws (rng (thermo w')) = draws (rng (thermo w)) /\
  getSkin (sys w') = getSkin (sys w) /\
  sys_rng (sys w') = sys_rng (sys w) /\
  ifShear (sys w') = ifShear (sys w) /\
  ifViscosity (sys w') = ifViscosity (sys w) /\
  forall q, position (storage (sys w') q) = position (storage (sys w) q) /\
            velocity (storage (sys w') q) = velocity (storage (sys w) q).

(** The invariant tying the two members of the cutoff state. *)
Definition cutoff_consistent (t : DPDThermostat) : Prop :=
  current_cutoff_sqr t = current_cutoff t * current_cutoff t.

(** The same world seen from a frame moving with velocity [- c]: every
    particle velocity is increased by [c]. *)
Definition shift_velocities (c : Real3D) (st : Storage) : Storage :=
  fun p => mkParticle (position (st p)) (V.add (velocity (st p)) c) (force (st p)).

Definition boost (c : Real3D) (w : World) : World :=
  mkWorld (thermo w) (set_storage (sys w) (shift_velocities c (storage (sys w)))).

(** The three setters in a row. *)
Definition reconfigure (x y z : R) (t : DPDThermostat) : DPDThermostat :=
  setTemperature z (setTGamma y (setGamma x t)).

Definition reconfigure_world (x y z : R) (w : World) : World :=
  mkWorld (reconfigure x y z (thermo w)) (sys w).

(** ** Signals of the integrator

    [connect] binds four member functions to four signals of the
    integrator and keeps the connection each returns; [disconnect] calls
    [disconnect()] on the four connections.  A signal is the list of its
    connected slots in calling order, each under the number of its
    connection; a connection member is empty until [connect] assigns it. *)

Inductive Slot : Type :=
| slot_initialize
| slot_heatUp
| slot_coolDown
| slot_thermalize
| slot_foreign (owner : nat).

Definition Signal : Type := list (nat * Slot).

Definition Connection : Type := option nat.

Record Integrator : Type := mkIntegrator {
  runInit : Signal;
  recalc1 : Signal;
  recalc2 : Signal;
  aftInitF : Signal;
  next_connection : nat
}.

(** The connection members [_initialize], [_heatUp], [_coolDown] and
    [_thermalize] of the object. *)
Record Connections : Type := mkConnections {
  _initialize : Connection;
  _heatUp : Connection;
  _coolDown : Connection;
  _thermalize : Connection
}.

Definition no_connections : Connections := mkConnections None None None None.

(** [signal.connect(slot)]: the slot goes to the back of the signal. *)
Definition signal_connect (sig : Signal) (id : nat) (slot : Slot) : Signal :=
  sig ++ [(id, slot)].

(** [connection.disconnect()]: the slot of that connection leaves its
    signal; nothing happens for an empty or already released connection. *)
Definition connection_disconnect (c : Connection) (sig : Signal) : Signal :=
  match c with
  | None => sig
  | Some id => filter (fun e => negb (Nat.eqb (fst e) id)) sig
  end.

Definition disconnect (c : Connections) (i : Integrator) : Integrator :=
  mkIntegrator (connection_disconnect (_initialize c) (runInit i))
               (connection_disconnect (_heatUp c) (recalc1 i))
               (connection_disconnect (_coolDown c) (recalc2 i))
               (connection_disconnect (_thermalize c) (aftInitF i))
               (next_connection i).

Definition connect (c : Connections) (i : Integrator) : Connections * Integrator :=
  let n := next_connection i in
  (mkConnections (Some n) (Some (S n)) (Some (S (S n))) (Some (S (S (S n)))),
   mkIntegrator (signal_connect (runInit i) n slot_initialize)
                (signal_connect (recalc1 i) (S n) slot_heatUp)
                (signal_connect (recalc2 i) (S (S n)) slot_coolDown)
                (signal_connect (aftInitF i) (S (S (S n))) slot_thermalize)
                (S (S (S (S n))))).

(** Connection numbers are handed out in increasing order: every connected
    slot carries a number below the next one to be given. *)
Definition signal_below (n : nat) (sig : Signal) : Prop :=
  Forall (fun e => (fst e < n)%nat) sig.

Definition well_numbered (i : Integrator) : Prop :=
  signal_below (next_connection i) (runInit i) /\
  signal_below (next_connection i) (recalc1 i) /\
  signal_below (next_connection i) (recalc2 i) /\
  signal_below (next_connection i) (aftInitF i).

(** * Properties *)

(** ** Vectors *)

Lemma Real3D_eq (a b : Real3D) :
  c0 a = c0 b -> c1 a = c1 b -> c2 a = c2 b -> a = b.
Proof. destruct a, b; simpl; intros; subst; reflexivity. Qed.

Ltac vec_ring := apply Real3D_eq; simpl; ring.

Lemma sqr_sub_self (a : Real3D) : V.sqr (V.sub a a) = 0.
Proof. unfold V.sqr, V.dot; simpl; ring. Qed.

Lemma sqr_nonneg (a : Real3D) : 0 <= V.sqr a.
Proof. unfold V.sqr, V.dot; nra. Qed.

Lemma add_sub_cancel (a f : Real3D) : V.sub (V.add a f) a = f.
Proof. vec_ring. Qed.

Lemma sub_sub_cancel (a f : Real3D) : V.sub (V.sub a f) a = V.neg f.
Proof. vec_ring. Qed.

(** The per-component projector of the source is [P v = v - r (r . v)]. *)
Lemma project_is_P (r v : Real3D) : project r v = Spec.P r v.
Proof. unfold project, Spec.P, V.dot; vec_ring. Qed.

(** A normalised vector has unit length. *)
Lemma unit_length (r : Real3D) :
  0 < V.sqr r -> V.sqr (V.div r (sqrt (V.sqr r))) = 1.
Proof.
  intros Hpos.
  assert (Hs : sqrt (V.sqr r) * sqrt (V.sqr r) = V.sqr r)
    by (apply sqrt_sqrt; lra).
  assert (Hne : sqrt (V.sqr r) <> 0)
    by (apply Rgt_not_eq, sqrt_lt_R0; exact Hpos).
  set (d := sqrt (V.sqr r)) in *.
  transitivity (V.sqr r / (d * d)).
  - unfold V.sqr, V.dot; simpl; field; exact Hne.
  - rewrite Hs. field. lra.
Qed.

(** The projector removes the component along a unit vector. *)
Lemma project_orthogonal (r v : Real3D) :
  V.sqr r = 1 -> V.dot r (project r v) = 0.
Proof.
  unfold V.sqr, V.dot, project; simpl; intros H.
  replace (c0 r * ((1 - c0 r * c0 r) * c0 v - c0 r * c1 r * c1 v - c0 r * c2 r * c2 v) +
           c1 r * ((1 - c1 r * c1 r) * c1 v - c1 r * c0 r * c0 v - c1 r * c2 r * c2 v) +
           c2 r * ((1 - c2 r * c2 r) * c2 v - c2 r * c0 r * c0 v - c2 r * c1 r * c1 v))
    with ((c0 r * c0 v + c1 r * c1 v + c2 r * c2 v) *
          (1 - (c0 r * c0 r + c1 r * c1 r + c2 r * c2 r))) by ring.
  rewrite H; ring.
Qed.

Lemma dot_scale_r (s : R) (a b : Real3D) : V.dot a (V.scale s b) = s * V.dot a b.
Proof. unfold V.dot; simpl; ring. Qed.

Lemma dot_sub_r (a b c : Real3D) : V.dot a (V.sub b c) = V.dot a b - V.dot a c.
Proof. unfold V.dot; simpl; ring. Qed.

(** ** Storage *)

Lemma write_same (st : Storage) (p : ParticleRef) (v : Particle) : write st p v p = v.
Proof. unfold write; rewrite Nat.eqb_refl; reflexivity. Qed.

Lemma write_other (st : Storage) (p q : ParticleRef) (v : Particle) :
  q <> p -> write st p v q = st q.
Proof. intros H; unfold write; apply Nat.eqb_neq in H; rewrite H; reflexivity. Qed.

Lemma set_force_force (p : Particle) (f : Real3D) : force (set_force p f) = f.
Proof. reflexivity. Qed.

Lemma storage_accumulate_stress (s : System) (r f : Real3D) :
  storage (accumulate_stress s r f) = storage s.
Proof. unfold accumulate_stress; destruct (ifShear s && ifViscosity s); reflexivity. Qed.

(** Two references with a non-zero separation designate two particles. *)
Lemma separated_distinct (w : World) (p1 p2 : ParticleRef) :
  pair_dist2 w p1 p2 <> 0 -> p1 <> p2.
Proof.
  intros H E; apply H; subst p2.
  unfold pair_dist2, pair_r; apply sqr_sub_self.
Qed.

Lemma dist_pos_dist2 (w : World) (p1 p2 : ParticleRef) :
  0 < sqrt (pair_dist2 w p1 p2) -> 0 < pair_dist2 w p1 p2.
Proof.
  intros H. destruct (Rle_lt_dec (pair_dist2 w p1 p2) 0) as [Hle | Hlt]; [ | exact Hlt ].
  rewrite (sqrt_neg_0 _ Hle) in H; lra.
Qed.

(** ** The kernels, branch by branch *)

Lemma frictionThermoDPD_skip (w : World) (p1 p2 : ParticleRef) :
  current_cutoff_sqr (thermo w) <= pair_dist2 w p1 p2 ->
  frictionThermoDPD p1 p2 w = w.
Proof.
  intros H. unfold frictionThermoDPD.
  fold (pair_r w p1 p2). fold (pair_dist2 w p1 p2).
  destruct (Rlt_dec (pair_dist2 w p1 p2) (current_cutoff_sqr (thermo w))) as [Hlt | _].
  - lra.
  - reflexivity.
Qed.

Lemma frictionThermoTDPD_skip (w : World) (p1 p2 : ParticleRef) :
  current_cutoff_sqr (thermo w) <= pair_dist2 w p1 p2 ->
  frictionThermoTDPD p1 p2 w = w.
Proof.
  intros H. unfold frictionThermoTDPD.
  fold (pair_r w p1 p2). fold (pair_dist2 w p1 p2).
  destruct (Rlt_dec (pair_dist2 w p1 p2) (current_cutoff_sqr (thermo w))) as [Hlt | _].
  - lra.
  - reflexivity.
Qed.

Lemma frictionThermoDPD_in (w : World) (p1 p2 : ParticleRef) :
  pair_dist2 w p1 p2 < current_cutoff_sqr (thermo w) ->
  frictionThermoDPD p1 p2 w =
  apply_pair_force w p1 p2 (snd (rng_call (rng (thermo w))))
                   (rhat w p1 p2) (DPD_f w p1 p2).
Proof.
  intros H. unfold frictionThermoDPD.
  fold (pair_r w p1 p2). fold (pair_dist2 w p1 p2).
  destruct (Rlt_dec (pair_dist2 w p1 p2) (current_cutoff_sqr (thermo w))) as [_ | Hge].
  - reflexivity.
  - contradiction.
Qed.

Lemma frictionThermoTDPD_in (w : World) (p1 p2 : ParticleRef) :
  pair_dist2 w p1 p2 < current_cutoff_sqr (thermo w) ->
  frictionThermoTDPD p1 p2 w =
  apply_pair_force w p1 p2 (snd (draw_noisevec (rng (thermo w))))
                   (rhat w p1 p2)
                   (V.sub (TDPD_f_rand w p1 p2) (TDPD_f_damp w p1 p2)).
Proof.
  intros H. unfold frictionThermoTDPD.
  fold (pair_r w p1 p2). fold (pair_dist2 w p1 p2).
  destruct (Rlt_dec (pair_dist2 w p1 p2) (current_cutoff_sqr (thermo w))) as [_ | Hge].
  - reflexivity.
  - contradiction.
Qed.

(** What [apply_pair_force] leaves in the storage when the two references
    are distinct. *)
Lemma apply_pair_force_p1 w p1 p2 g r f :
  p1 <> p2 ->
  storage (sys (apply_pair_force w p1 p2 g r f)) p1 =
  set_force (storage (sys w) p1) (V.add (force (storage (sys w) p1)) f).
Proof.
  intros Hne. unfold apply_pair_force. cbv zeta. cbn [sys].
  rewrite storage_accumulate_stress. cbn [storage set_storage].
  unfold force_sub. rewrite write_other by exact Hne.
  unfold force_add. apply write_same.
Qed.

Lemma apply_pair_force_p2 w p1 p2 g r f :
  p1 <> p2 ->
  storage (sys (apply_pair_force w p1 p2 g r f)) p2 =
  set_force (storage (sys w) p2) (V.sub (force (storage (sys w) p2)) f).
Proof.
  intros Hne. unfold apply_pair_force. cbv zeta. cbn [sys].
  rewrite storage_accumulate_stress. cbn [storage set_storage].
  unfold force_sub. rewrite write_same.
  unfold force_add. rewrite write_other by (intro E; apply Hne; symmetry; exact E).
  reflexivity.
Qed.

Lemma apply_pair_force_other w p1 p2 g r f q :
  q <> p1 -> q <> p2 ->
  storage (sys (apply_pair_force w p1 p2 g r f)) q = storage (sys w) q.
Proof.
  intros H1 H2. unfold apply_pair_force. cbv zeta. cbn [sys].
  rewrite storage_accumulate_stress. cbn [storage set_storage].
  unfold force_sub. rewrite write_other by exact H2.
  unfold force_add. apply write_other; exact H1.
Qed.

Lemma apply_pair_force_rng w p1 p2 g r f :
  rng (thermo (apply_pair_force w p1 p2 g r f)) = g.
Proof. reflexivity. Qed.

(** Neither kernel touches the configuration of the thermostat. *)
Lemma frictionThermoDPD_config (w : World) (p1 p2 : ParticleRef) :
  gamma (thermo (frictionThermoDPD p1 p2 w)) = gamma (thermo w) /\
  tgamma (thermo (frictionThermoDPD p1 p2 w)) = tgamma (thermo w).
Proof.
  destruct (Rlt_dec (pair_dist2 w p1 p2) (current_cutoff_sqr (thermo w))) as [Hlt | Hge].
  - rewrite (frictionThermoDPD_in w p1 p2 Hlt); split; reflexivity.
  - rewrite (frictionThermoDPD_skip w p1 p2 (Rnot_lt_le _ _ Hge)); split; reflexivity.
Qed.

Lemma frictionThermoTDPD_config (w : World) (p1 p2 : ParticleRef) :
  gamma (thermo (frictionThermoTDPD p1 p2 w)) = gamma (thermo w) /\
  tgamma (thermo (frictionThermoTDPD p1 p2 w)) = tgamma (thermo w).
Proof.
  destruct (Rlt_dec (pair_dist2 w p1 p2) (current_cutoff_sqr (thermo w))) as [Hlt | Hge].
  - rewrite (frictionThermoTDPD_in w p1 p2 Hlt); split; reflexivity.
  - rewrite (frictionThermoTDPD_skip w p1 p2 (Rnot_lt_le _ _ Hge)); split; reflexivity.
Qed.

(** The pair loop of [thermalize] when [gamma] is 0: the sign of [tgamma]
    alone decides, once and for all pairs, whether the transverse kernel
    runs. *)
Lemma pair_loop_gamma_zero (pairs : list (ParticleRef * ParticleRef)) :
  forall w : World,
    gamma (thermo w) = 0 ->
    fold_left thermalize_pair pairs w =
    if Rgt_dec (tgamma (thermo w)) 0
    then fold_left (fun w pr => frictionThermoTDPD (fst pr) (snd pr) w) pairs w
    else w.
Proof.
  induction pairs as [ | [p1 p2] pairs IH ]; intros w Hg.
  - simpl. destruct (Rgt_dec (tgamma (thermo w)) 0); reflexivity.
  - cbn [fold_left]. unfold thermalize_pair at 2. rewrite Hg.
    destruct (Rgt_dec 0 0) as [Habs | _]; [ lra | ].
    destruct (Rgt_dec (tgamma (thermo w)) 0) as [Ht | Ht].
    + destruct (frictionThermoTDPD_config w p1 p2) as [Eg Et].
      rewrite IH by (rewrite Eg; exact Hg).
      rewrite Et.
      destruct (Rgt_dec (tgamma (thermo w)) 0) as [_ | Hn]; [ reflexivity | contradiction ].
    + rewrite IH by exact Hg.
      destruct (Rgt_dec (tgamma (thermo w)) 0) as [Hp | _]; [ contradiction | reflexivity ].
Qed.

(** ** The concrete configuration *)

Lemma example_dist2 : pair_dist2 Example.world 0%nat 1%nat = 0.25.
Proof. unfold pair_dist2, pair_r, V.sqr, V.dot; simpl; lra. Qed.

Lemma example_dist2_far : pair_dist2 Example.world 0%nat 2%nat = 4.
Proof. unfold pair_dist2, pair_r, V.sqr, V.dot; simpl; lra. Qed.

Lemma example_cutoff_sqr : current_cutoff_sqr (thermo Example.world) = 1.
Proof. simpl; lra. Qed.

Lemma example_in_cutoff :
  pair_dist2 Example.world 0%nat 1%nat < current_cutoff_sqr (thermo Example.world).
Proof. rewrite example_dist2, example_cutoff_sqr; lra. Qed.

Lemma example_dist_pos : 0 < sqrt (pair_dist2 Example.world 0%nat 1%nat).
Proof. rewrite example_dist2; apply sqrt_lt_R0; lra. Qed.

Lemma example_beyond_cutoff :
  current_cutoff_sqr (thermo Example.world) <= pair_dist2 Example.world 0%nat 2%nat.
Proof. rewrite example_dist2_far, example_cutoff_sqr; lra. Qed.

Lemma example_dist : sqrt (pair_dist2 Example.world 0%nat 1%nat) = 0.5.
Proof.
  rewrite example_dist2.
  replace 0.25 with (0.5 * 0.5) by lra.
  apply sqrt_square; lra.
Qed.

(** Scenario A: the scalar kernel decelerates the moving particle with a
    force of magnitude 0.25 along the pair axis and accelerates the other
    one by as much; the noise term vanishes for a draw of 0.5. *)
Lemma scenario_A :
  let w' := frictionThermoDPD 0%nat 1%nat Example.world in
  force (storage (sys w') 0%nat) = mkReal3D (-0.25) 0 0 /\
  force (storage (sys w') 1%nat) = mkReal3D 0.25 0 0.
Proof.
  cbv zeta. rewrite (frictionThermoDPD_in _ _ _ example_in_cutoff).
  rewrite apply_pair_force_p1, apply_pair_force_p2 by discriminate.
  rewrite !set_force_force.
  unfold DPD_f, omega, rhat. rewrite example_dist.
  unfold pair_veldiff, pair_r, V.dot, V.div.
  split; apply Real3D_eq; simpl; lra.
Qed.

(** Scenario B: with velocities along the pair axis the transverse damping
    vanishes. *)
Lemma scenario_B_damping :
  TDPD_f_damp Example.world 0%nat 1%nat = V.zero.
Proof.
  unfold TDPD_f_damp, omega, rhat. rewrite example_dist.
  unfold pair_veldiff, pair_r, project, V.div.
  apply Real3D_eq; simpl; lra.
Qed.

(** ** Outside the cutoff *)

(** C7: for a pair whose squared separation is at least [current_cutoff_sqr],
    both kernels return the world they were given: no particle force, no
    stress accumulator and no generator state changes, and no draw is taken. *)
Theorem kernels_skip_beyond_cutoff (w : World) (p1 p2 : ParticleRef) :
  pair_dist2 w p1 p2 >= current_cutoff_sqr (thermo w) ->
  frictionThermoDPD p1 p2 w = w /\ frictionThermoTDPD p1 p2 w = w.
Proof.
  intros H; apply Rge_le in H; split.
  - apply frictionThermoDPD_skip; exact H.
  - apply frictionThermoTDPD_skip; exact H.
Qed.

Lemma kernels_skip_beyond_cutoff_witness :
  pair_dist2 Example.world 0%nat 2%nat >= current_cutoff_sqr (thermo Example.world) /\
  frictionThermoDPD 0%nat 2%nat Example.world = Example.world /\
  frictionThermoTDPD 0%nat 2%nat Example.world = Example.world.
Proof.
  split.
  - apply Rle_ge, example_beyond_cutoff.
  - apply (kernels_skip_beyond_cutoff Example.world 0%nat 2%nat).
    apply Rle_ge, example_beyond_cutoff.
Defined.

(** ** Prefactors *)

(** C3: [initialize] sets [pref1 = gamma],
    [pref2 = sqrt (24 temperature gamma / dt)], [pref3 = tgamma],
    [pref4 = sqrt (24 temperature tgamma / dt)], the cutoff to the verlet
    cutoff minus the skin and [current_cutoff_sqr] to its square, and leaves
    the configuration as it was. *)
Theorem initialize_prefactors (verletList : VerletList) (system : System) (dt : R)
  (t : DPDThermostat) :
  let t' := initialize verletList system dt t in
  pref1 t' = gamma t /\
  pref2 t' = sqrt (24 * temperature t * gamma t / dt) /\
  pref3 t' = tgamma t /\
  pref4 t' = sqrt (24 * temperature t * tgamma t / dt) /\
  current_cutoff t' = getVerletCutoff verletList - getSkin system /\
  current_cutoff_sqr t' = (getVerletCutoff verletList - getSkin system) ^ 2 /\
  gamma t' = gamma t /\ tgamma t' = tgamma t /\ temperature t' = temperature t.
Proof.
  cbv zeta; unfold initialize; cbn [pref1 pref2 pref3 pref4 current_cutoff
    current_cutoff_sqr gamma tgamma temperature].
  repeat split; ring.
Qed.

(** ** Restart correction *)

(** C6: [heatUp] copies [pref2] and [pref4] into their buffers and multiplies
    both by [sqrt 3]; [coolDown] after it gives back the two prefactors it
    started from, and [pref1], [pref3] never move. *)
Theorem heatUp_coolDown_roundtrip (t : DPDThermostat) :
  (pref2buffer (heatUp t) = pref2 t /\ pref4buffer (heatUp t) = pref4 t /\
   pref2 (heatUp t) = pref2 t * sqrt 3 /\ pref4 (heatUp t) = pref4 t * sqrt 3) /\
  (pref2 (coolDown (heatUp t)) = pref2 t /\ pref4 (coolDown (heatUp t)) = pref4 t /\
   pref1 (coolDown (heatUp t)) = pref1 t /\ pref3 (coolDown (heatUp t)) = pref3 t).
Proof. repeat split. Qed.

(** ** Construction *)

(** C9: the constructor throws exactly when the system has no random source;
    with one, it returns an object that draws from that source. *)
Theorem constructor_requires_rng (raw : Uninit) (system : System) (verletList : VerletList) :
  (sys_rng system = None ->
   DPDThermostat_new raw system verletList = inl "system has no RNG"%string) /\
  (forall g, sys_rng system = Some g ->
   exists t, DPDThermostat_new raw system verletList = inr t /\ rng t = g).
Proof.
  unfold DPDThermostat_new; split.
  - intros ->; reflexivity.
  - intros g ->; eexists; split; reflexivity.
Qed.

Lemma constructor_requires_rng_witness :
  DPDThermostat_new Example.raw Example.system_without_rng Example.verletList
    = inl "system has no RNG"%string /\
  exists t, DPDThermostat_new Example.raw Example.system Example.verletList = inr t /\
            rng t = Example.generator.
Proof.
  split.
  - apply (constructor_requires_rng Example.raw Example.system_without_rng
             Example.verletList); reflexivity.
  - apply (constructor_requires_rng Example.raw Example.system Example.verletList);
      reflexivity.
Defined.

(** C10: the constructor sets [gamma] and [temperature] to 0 and leaves
    [tgamma] as the memory held it.  Until [setTGamma] is called, that
    unassigned value decides whether [thermalize] runs the transverse kernel
    on its pairs, and it is what [initialize] turns into [pref3] and
    [pref4]. *)
Theorem constructor_leaves_tgamma (raw : Uninit) (system : System)
  (verletList : VerletList) (t : DPDThermostat) :
  DPDThermostat_new raw system verletList = inr t ->
  gamma t = 0 /\ temperature t = 0 /\ tgamma t = u_tgamma raw /\
  (forall s p1 p2,
     thermalize_pair (mkWorld t s) (p1, p2) =
     if Rgt_dec (u_tgamma raw) 0
     then frictionThermoTDPD p1 p2 (mkWorld t s)
     else mkWorld t s) /\
  (forall updateGhostsV vl s,
     thermalize updateGhostsV vl (mkWorld t s) =
     let w0 := mkWorld t (set_storage s (updateGhostsV (storage s))) in
     if Rgt_dec (u_tgamma raw) 0
     then fold_left (fun w pr => frictionThermoTDPD (fst pr) (snd pr) w) (getPairs vl) w0
     else w0) /\
  (forall vl s dt,
     pref3 (initialize vl s dt t) = u_tgamma raw /\
     pref4 (initialize vl s dt t) = sqrt (24 * 0 * u_tgamma raw / dt)).
Proof.
  unfold DPDThermostat_new.
  destruct (sys_rng system) as [g | ]; [ | discriminate ].
  intros E; injection E as <-.
  split; [ reflexivity | ]. split; [ reflexivity | ]. split; [ reflexivity | ].
  split; [ | split ].
  - intros s p1 p2. unfold thermalize_pair. cbn [thermo gamma tgamma].
    destruct (Rgt_dec 0 0) as [Habs | _]; [ lra | reflexivity ].
  - intros updateGhostsV vl s. unfold thermalize. cbv zeta. cbn [thermo sys].
    rewrite pair_loop_gamma_zero by reflexivity. reflexivity.
  - intros vl s dt; split; reflexivity.
Qed.

Lemma constructor_leaves_tgamma_witness :
  exists t, DPDThermostat_new Example.raw Example.system Example.verletList = inr t /\
            gamma t = 0 /\ temperature t = 0 /\ tgamma t = 7.
Proof.
  eexists; split; [ reflexivity | ].
  split; [ | split ];
    apply (constructor_leaves_tgamma Example.raw Example.system Example.verletList);
    reflexivity.
Defined.

(** ** The cutoff state *)

(** C8, as stated, fails: with a verlet cutoff of 0.2 and a skin of 0.3 both
    the constructor and [initialize] leave a negative [current_cutoff]. *)
Lemma cutoff_not_always_positive :
  (exists t, DPDThermostat_new Example.raw Example.system Example.verletList_short = inr t /\
             ~ 0 < current_cutoff t) /\
  ~ 0 < current_cutoff
        (initialize Example.verletList_short Example.system 0.01 Example.thermostat).
Proof.
  split.
  - eexists; split; [ reflexivity | ]. simpl; lra.
  - simpl; lra.
Qed.

(** C8, amended: whenever the verlet cutoff exceeds the skin, the object the
    constructor returns and the object [initialize] returns both have
    [current_cutoff > 0] and [current_cutoff_sqr > 0]. *)
Theorem cutoff_positive (system : System) (verletList : VerletList) :
  getSkin system < getVerletCutoff verletList ->
  (forall raw t, DPDThermostat_new raw system verletList = inr t ->
     0 < current_cutoff t /\ 0 < current_cutoff_sqr t) /\
  (forall dt t,
     0 < current_cutoff (initialize verletList system dt t) /\
     0 < current_cutoff_sqr (initialize verletList system dt t)).
Proof.
  intros Hskin; split.
  - intros raw t. unfold DPDThermostat_new.
    destruct (sys_rng system) as [g | ]; [ | discriminate ].
    intros E; injection E as <-.
    cbn [current_cutoff current_cutoff_sqr]; split; nra.
  - intros dt t; unfold initialize.
    cbn [current_cutoff current_cutoff_sqr]; split; nra.
Qed.

Lemma cutoff_positive_witness :
  getSkin Example.system < getVerletCutoff Example.verletList /\
  0 < current_cutoff (initialize Example.verletList Example.system 0.01 Example.thermostat) /\
  0 < current_cutoff_sqr (initialize Example.verletList Example.system 0.01 Example.thermostat).
Proof.
  assert (H : getSkin Example.system < getVerletCutoff Example.verletList)
    by (simpl; lra).
  split; [ exact H | ].
  apply (cutoff_positive Example.system Example.verletList H).
Defined.

(** ** Inside the cutoff *)

Lemma apply_pair_force_opposite w p1 p2 g r f :
  p1 <> p2 -> equal_and_opposite w (apply_pair_force w p1 p2 g r f) p1 p2.
Proof.
  intros Hne; exists f; split.
  - rewrite apply_pair_force_p1 by exact Hne; reflexivity.
  - rewrite apply_pair_force_p2 by exact Hne; rewrite set_force_force; vec_ring.
Qed.

(** C1: for a pair inside the cutoff with non-zero separation, each kernel
    adds one vector to the force of [p1] and its exact negative to the force
    of [p2], in the same call; the gain of [p1] is the negative of the gain
    of [p2]. *)
Theorem kernels_equal_and_opposite (w : World) (p1 p2 : ParticleRef) :
  pair_dist2 w p1 p2 < current_cutoff_sqr (thermo w) ->
  pair_dist2 w p1 p2 <> 0 ->
  (equal_and_opposite w (frictionThermoDPD p1 p2 w) p1 p2 /\
   force_gain w (frictionThermoDPD p1 p2 w) p1 =
   V.neg (force_gain w (frictionThermoDPD p1 p2 w) p2)) /\
  (equal_and_opposite w (frictionThermoTDPD p1 p2 w) p1 p2 /\
   force_gain w (frictionThermoTDPD p1 p2 w) p1 =
   V.neg (force_gain w (frictionThermoTDPD p1 p2 w) p2)).
Proof.
  intros Hcut Hsep.
  assert (Hne : p1 <> p2) by (apply (separated_distinct w); exact Hsep).
  rewrite (frictionThermoDPD_in w p1 p2 Hcut), (frictionThermoTDPD_in w p1 p2 Hcut).
  split; (split; [ apply apply_pair_force_opposite; exact Hne | ]);
    unfold force_gain;
    rewrite apply_pair_force_p1, apply_pair_force_p2 by exact Hne;
    rewrite !set_force_force; vec_ring.
Qed.

Lemma kernels_equal_and_opposite_witness :
  equal_and_opposite Example.world (frictionThermoDPD 0%nat 1%nat Example.world) 0%nat 1%nat /\
  equal_and_opposite Example.world (frictionThermoTDPD 0%nat 1%nat Example.world) 0%nat 1%nat.
Proof.
  assert (Hsep : pair_dist2 Example.world 0%nat 1%nat <> 0)
    by (rewrite example_dist2; lra).
  split;
    apply (kernels_equal_and_opposite Example.world 0%nat 1%nat example_in_cutoff Hsep).
Defined.

(** The local [f] of the scalar kernel is the documented scalar force. *)
Lemma DPD_f_spec (w : World) (p1 p2 : ParticleRef) :
  DPD_f w p1 p2 =
  Spec.scalar_force (pref1 (thermo w)) (pref2 (thermo w)) (current_cutoff (thermo w))
    (position (storage (sys w) p1)) (position (storage (sys w) p2))
    (velocity (storage (sys w) p1)) (velocity (storage (sys w) p2))
    (draws (rng (thermo w)) (taken (rng (thermo w)))).
Proof. reflexivity. Qed.

(** C2: inside the cutoff and at positive distance, the scalar kernel adds
    [f = (pref2 omega (u - 0.5) - pref1 omega^2 ((v1 - v2) . rhat)) rhat] to
    the force of [p1] and subtracts the same [f] from the force of [p2],
    where [u] is the next draw of the generator; exactly that one draw is
    taken, and no other particle and no position or velocity changes. *)
Theorem frictionThermoDPD_force (w : World) (p1 p2 : ParticleRef) :
  pair_dist2 w p1 p2 < current_cutoff_sqr (thermo w) ->
  0 < sqrt (pair_dist2 w p1 p2) ->
  let st := storage (sys w) in
  let u := draws (rng (thermo w)) (taken (rng (thermo w))) in
  let f := Spec.scalar_force (pref1 (thermo w)) (pref2 (thermo w))
             (current_cutoff (thermo w))
             (position (st p1)) (position (st p2))
             (velocity (st p1)) (velocity (st p2)) u in
  let w' := frictionThermoDPD p1 p2 w in
  storage (sys w') p1 = set_force (st p1) (V.add (force (st p1)) f) /\
  storage (sys w') p2 = set_force (st p2) (V.sub (force (st p2)) f) /\
  (forall q, q <> p1 -> q <> p2 -> storage (sys w') q = st q) /\
  rng (thermo w') = mkRNG (draws (rng (thermo w))) (S (taken (rng (thermo w)))).
Proof.
  intros Hcut Hdist; cbv zeta.
  assert (Hne : p1 <> p2).
  { apply (separated_distinct w). apply Rgt_not_eq, dist_pos_dist2, Hdist. }
  rewrite (frictionThermoDPD_in w p1 p2 Hcut), <- DPD_f_spec.
  split; [ apply apply_pair_force_p1; exact Hne | ].
  split; [ apply apply_pair_force_p2; exact Hne | ].
  split; [ intros q H1 H2; apply apply_pair_force_other; assumption | ].
  reflexivity.
Qed.

Lemma frictionThermoDPD_force_witness :
  force (storage (sys (frictionThermoDPD 0%nat 1%nat Example.world)) 0%nat) =
  V.add (force Example.particleA)
        (Spec.scalar_force 1 (sqrt (24 * 1 * 1 / 0.01)) (1.3 - 0.3)
           (position Example.particleA) (position Example.particleB)
           (velocity Example.particleA) (velocity Example.particleB) 0.5).
Proof.
  rewrite (proj1 (frictionThermoDPD_force Example.world 0%nat 1%nat
                    example_in_cutoff example_dist_pos)).
  reflexivity.
Defined.

(** The locals [f_damp] and [f_rand] of the transverse kernel are the
    documented damping and random forces. *)
Lemma TDPD_f_damp_spec (w : World) (p1 p2 : ParticleRef) :
  TDPD_f_damp w p1 p2 =
  Spec.f_damp (pref3 (thermo w)) (current_cutoff (thermo w))
    (position (storage (sys w) p1)) (position (storage (sys w) p2))
    (velocity (storage (sys w) p1)) (velocity (storage (sys w) p2)).
Proof. unfold TDPD_f_damp, Spec.f_damp; rewrite project_is_P; reflexivity. Qed.

Lemma TDPD_f_rand_spec (w : World) (p1 p2 : ParticleRef) :
  TDPD_f_rand w p1 p2 =
  Spec.f_rand (pref4 (thermo w)) (current_cutoff (thermo w))
    (position (storage (sys w) p1)) (position (storage (sys w) p2))
    (Spec.noise_vector (draws (rng (thermo w)) (taken (rng (thermo w))))
                       (draws (rng (thermo w)) (S (taken (rng (thermo w)))))
                       (draws (rng (thermo w)) (S (S (taken (rng (thermo w))))))).
Proof. unfold TDPD_f_rand, Spec.f_rand; rewrite project_is_P; reflexivity. Qed.

(** C4: inside the cutoff and at positive distance, the transverse kernel
    computes [f_damp = pref3 omega^2 (P veldiff)] and
    [f_rand = pref4 omega (P n)] with [P v = v - rhat (rhat . v)],
    [veldiff = v1 - v2] and [n] the vector of the next three recentred
    draws; it adds [f_rand - f_damp] to the force of [p1] and subtracts it
    from the force of [p2], taking exactly those three draws. *)
Theorem frictionThermoTDPD_force (w : World) (p1 p2 : ParticleRef) :
  pair_dist2 w p1 p2 < current_cutoff_sqr (thermo w) ->
  0 < sqrt (pair_dist2 w p1 p2) ->
  let st := storage (sys w) in
  let g := rng (thermo w) in
  let n := Spec.noise_vector (draws g (taken g)) (draws g (S (taken g)))
                             (draws g (S (S (taken g)))) in
  let f_damp := Spec.f_damp (pref3 (thermo w)) (current_cutoff (thermo w))
                  (position (st p1)) (position (st p2))
                  (velocity (st p1)) (velocity (st p2)) in
  let f_rand := Spec.f_rand (pref4 (thermo w)) (current_cutoff (thermo w))
                  (position (st p1)) (position (st p2)) n in
  let w' := frictionThermoTDPD p1 p2 w in
  TDPD_f_damp w p1 p2 = f_damp /\
  TDPD_f_rand w p1 p2 = f_rand /\
  storage (sys w') p1 = set_force (st p1) (V.add (force (st p1)) (V.sub f_rand f_damp)) /\
  storage (sys w') p2 = set_force (st p2) (V.sub (force (st p2)) (V.sub f_rand f_damp)) /\
  (forall q, q <> p1 -> q <> p2 -> storage (sys w') q = st q) /\
  rng (thermo w') = mkRNG (draws g) (S (S (S (taken g)))).
Proof.
  intros Hcut Hdist; cbv zeta.
  assert (Hne : p1 <> p2).
  { apply (separated_distinct w). apply Rgt_not_eq, dist_pos_dist2, Hdist. }
  rewrite (frictionThermoTDPD_in w p1 p2 Hcut), <- TDPD_f_damp_spec, <- TDPD_f_rand_spec.
  split; [ reflexivity | ]. split; [ reflexivity | ].
  split; [ apply apply_pair_force_p1; exact Hne | ].
  split; [ apply apply_pair_force_p2; exact Hne | ].
  split; [ intros q H1 H2; apply apply_pair_force_other; assumption | ].
  reflexivity.
Qed.

Lemma frictionThermoTDPD_force_witness :
  rng (thermo (frictionThermoTDPD 0%nat 1%nat Example.world)) =
  mkRNG (fun _ => 0.5) 3.
Proof.
  rewrite (proj2 (proj2 (proj2 (proj2 (proj2
            (frictionThermoTDPD_force Example.world 0%nat 1%nat
               example_in_cutoff example_dist_pos)))))).
  reflexivity.
Defined.

(** C5: inside the cutoff and at positive distance, whatever the velocities
    and the draws, the damping part, the random part and the force the
    transverse kernel applies are each orthogonal to the unit separation
    vector. *)
Theorem transverse_orthogonal (w : World) (p1 p2 : ParticleRef) :
  pair_dist2 w p1 p2 < current_cutoff_sqr (thermo w) ->
  0 < sqrt (pair_dist2 w p1 p2) ->
  V.dot (rhat w p1 p2) (TDPD_f_damp w p1 p2) = 0 /\
  V.dot (rhat w p1 p2) (TDPD_f_rand w p1 p2) = 0 /\
  V.dot (rhat w p1 p2) (force_gain w (frictionThermoTDPD p1 p2 w) p1) = 0 /\
  V.dot (rhat w p1 p2) (force_gain w (frictionThermoTDPD p1 p2 w) p2) = 0.
Proof.
  intros Hcut Hdist.
  assert (Hpos : 0 < pair_dist2 w p1 p2) by (apply dist_pos_dist2, Hdist).
  assert (Hne : p1 <> p2) by (apply (separated_distinct w); lra).
  assert (Hunit : V.sqr (rhat w p1 p2) = 1) by (apply unit_length; exact Hpos).
  assert (Hd : V.dot (rhat w p1 p2) (TDPD_f_damp w p1 p2) = 0).
  { unfold TDPD_f_damp. rewrite dot_scale_r, (project_orthogonal _ _ Hunit). ring. }
  assert (Hr : V.dot (rhat w p1 p2) (TDPD_f_rand w p1 p2) = 0).
  { unfold TDPD_f_rand. rewrite dot_scale_r, (project_orthogonal _ _ Hunit). ring. }
  split; [ exact Hd | ]. split; [ exact Hr | ].
  rewrite (frictionThermoTDPD_in w p1 p2 Hcut). unfold force_gain.
  rewrite apply_pair_force_p1, apply_pair_force_p2 by exact Hne.
  rewrite !set_force_force, add_sub_cancel, sub_sub_cancel.
  split.
  - rewrite dot_sub_r, Hd, Hr; ring.
  - replace (V.neg (V.sub (TDPD_f_rand w p1 p2) (TDPD_f_damp w p1 p2)))
      with (V.sub (TDPD_f_damp w p1 p2) (TDPD_f_rand w p1 p2)) by vec_ring.
    rewrite dot_sub_r, Hd, Hr; ring.
Qed.

Lemma transverse_orthogonal_witness :
  V.dot (rhat Example.world 0%nat 1%nat) (TDPD_f_damp Example.world 0%nat 1%nat) = 0 /\
  V.dot (rhat Example.world 0%nat 1%nat) (TDPD_f_rand Example.world 0%nat 1%nat) = 0.
Proof.
  split;
    apply (transverse_orthogonal Example.world 0%nat 1%nat
             example_in_cutoff example_dist_pos).
Defined.

(** * Further properties of the code *)

(** ** What the kernels leave alone *)

Lemma set_rng_rng (t : DPDThermostat) : set_rng t (rng t) = t.
Proof. destruct t; reflexivity. Qed.

Lemma frame_refl (w : World) : frame w w.
Proof.
  unfold frame. rewrite set_rng_rng.
  repeat split; reflexivity.
Qed.

Lemma frame_trans (w1 w2 w3 : World) : frame w1 w2 -> frame w2 w3 -> frame w1 w3.
Proof.
  unfold frame.
  intros (Ht & Hd & Hk & Hr & Hs & Hv & Hq) (Ht' & Hd' & Hk' & Hr' & Hs' & Hv' & Hq').
  repeat split; try congruence.
  - rewrite Ht', Ht. reflexivity.
  - rewrite (proj1 (Hq' q)). apply Hq.
  - rewrite (proj2 (Hq' q)). apply Hq.
Qed.

Lemma write_set_force_position st p f q :
  position (write st p (set_force (st p) f) q) = position (st q) /\
  velocity (write st p (set_force (st p) f) q) = velocity (st q).
Proof.
  unfold write. destruct (Nat.eqb q p) eqn:E.
  - apply Nat.eqb_eq in E; subst q; split; reflexivity.
  - split; reflexivity.
Qed.

Lemma accumulate_stress_fields (s : System) (r f : Real3D) :
  getSkin (accumulate_stress s r f) = getSkin s /\
  sys_rng (accumulate_stress s r f) = sys_rng s /\
  ifShear (accumulate_stress s r f) = ifShear s /\
  ifViscosity (accumulate_stress s r f) = ifViscosity s.
Proof.
  unfold accumulate_stress; destruct (ifShear s && ifViscosity s);
    repeat split; reflexivity.
Qed.

Lemma apply_pair_force_frame w p1 p2 g r f :
  draws g = draws (rng (thermo w)) -> frame w (apply_pair_force w p1 p2 g r f).
Proof.
  intros Hg. unfold frame, apply_pair_force. cbv zeta. cbn [thermo sys].
  destruct (accumulate_stress_fields
              (set_storage (sys w)
                 (force_sub (force_add (storage (sys w)) p1 f) p2 f)) r f)
    as (E1 & E2 & E3 & E4).
  rewrite E1, E2, E3, E4, storage_accumulate_stress.
  cbn [getSkin sys_rng ifShear ifViscosity storage set_storage].
  split; [ reflexivity | ]. split; [ exact Hg | ].
  repeat (split; [ reflexivity | ]).
  intros q. unfold force_sub, force_add.
  destruct (write_set_force_position
              (write (storage (sys w)) p1
                 (set_force (storage (sys w) p1) (V.add (force (storage (sys w) p1)) f)))
              p2
              (V.sub (force (write (storage (sys w)) p1
                 (set_force (storage (sys w) p1)
                    (V.add (force (storage (sys w) p1)) f)) p2)) f) q) as [P1 P2].
  rewrite P1, P2.
  apply write_set_force_position.
Qed.

Lemma frictionThermoDPD_frame (w : World) (p1 p2 : ParticleRef) :
  frame w (frictionThermoDPD p1 p2 w).
Proof.
  destruct (Rlt_dec (pair_dist2 w p1 p2) (current_cutoff_sqr (thermo w))) as [Hlt | Hge].
  - rewrite (frictionThermoDPD_in w p1 p2 Hlt).
    apply apply_pair_force_frame; reflexivity.
  - rewrite (frictionThermoDPD_skip w p1 p2 (Rnot_lt_le _ _ Hge)). apply frame_refl.
Qed.

Lemma frictionThermoTDPD_frame (w : World) (p1 p2 : ParticleRef) :
  frame w (frictionThermoTDPD p1 p2 w).
Proof.
  destruct (Rlt_dec (pair_dist2 w p1 p2) (current_cutoff_sqr (thermo w))) as [Hlt | Hge].
  - rewrite (frictionThermoTDPD_in w p1 p2 Hlt).
    apply apply_pair_force_frame; reflexivity.
  - rewrite (frictionThermoTDPD_skip w p1 p2 (Rnot_lt_le _ _ Hge)). apply frame_refl.
Qed.

Lemma thermalize_pair_frame (w : World) (pr : ParticleRef * ParticleRef) :
  frame w (thermalize_pair w pr).
Proof.
  destruct pr as [p1 p2]. unfold thermalize_pair.
  destruct (Rgt_dec (gamma (thermo w)) 0).
  - destruct (Rgt_dec (tgamma (thermo (frictionThermoDPD p1 p2 w))) 0).
    + eapply frame_trans; [ apply frictionThermoDPD_frame | apply frictionThermoTDPD_frame ].
    + apply frictionThermoDPD_frame.
  - destruct (Rgt_dec (tgamma (thermo w)) 0).
    + apply frictionThermoTDPD_frame.
    + apply frame_refl.
Qed.

(** The pair loop of [thermalize] moves no particle, changes no velocity,
    and leaves every member of the thermostat but the position of its
    generator as it was: the configuration, the cutoff state, the four
    prefactors and the two buffers. *)
Lemma pair_loop_frame (pairs : list (ParticleRef * ParticleRef)) (w : World) :
  frame w (fold_left thermalize_pair pairs w).
Proof.
  revert w; induction pairs as [ | pr pairs IH ]; intros w.
  - apply frame_refl.
  - cbn [fold_left]. eapply frame_trans; [ apply thermalize_pair_frame | apply IH ].
Qed.


(** ** Total force *)









(** ** Random numbers consumed *)

Lemma frame_thermo_fields (w w' : World) :
  frame w w' ->
  gamma (thermo w') = gamma (thermo w) /\
  tgamma (thermo w') = tgamma (thermo w) /\
  current_cutoff_sqr (thermo w') = current_cutoff_sqr (thermo w).
Proof.
  intros (Ht & _). rewrite Ht. repeat split; reflexivity.
Qed.

Lemma frame_pair_dist2 (w w' : World) (p1 p2 : ParticleRef) :
  frame w w' -> pair_dist2 w' p1 p2 = pair_dist2 w p1 p2.
Proof.
  intros (_ & _ & _ & _ & _ & _ & Hq).
  unfold pair_dist2, pair_r.
  rewrite (proj1 (Hq p1)), (proj1 (Hq p2)). reflexivity.
Qed.

Lemma frame_in_range (w w' : World) (pr : ParticleRef * ParticleRef) :
  frame w w' -> in_range w' pr = in_range w pr.
Proof.
  intros F. unfold in_range.
  rewrite (frame_pair_dist2 w w' _ _ F).
  destruct (frame_thermo_fields w w' F) as (_ & _ & ->). reflexivity.
Qed.

Lemma frame_draws_per_pair (w w' : World) :
  frame w w' -> draws_per_pair (thermo w') = draws_per_pair (thermo w).
Proof.
  intros F. unfold draws_per_pair.
  destruct (frame_thermo_fields w w' F) as (-> & -> & _). reflexivity.
Qed.

Lemma frictionThermoDPD_taken (w : World) (p1 p2 : ParticleRef) :
  taken (rng (thermo (frictionThermoDPD p1 p2 w))) =
  (taken (rng (thermo w)) + (if in_range w (p1, p2) then 1 else 0))%nat.
Proof.
  unfold in_range; cbn [fst snd].
  destruct (Rlt_dec (pair_dist2 w p1 p2) (current_cutoff_sqr (thermo w))) as [Hlt | Hge].
  - rewrite (frictionThermoDPD_in w p1 p2 Hlt), apply_pair_force_rng.
    cbn [rng_call snd taken]. rewrite Nat.add_1_r. reflexivity.
  - rewrite (frictionThermoDPD_skip w p1 p2 (Rnot_lt_le _ _ Hge)).
    rewrite Nat.add_0_r. reflexivity.
Qed.

Lemma frictionThermoTDPD_taken (w : World) (p1 p2 : ParticleRef) :
  taken (rng (thermo (frictionThermoTDPD p1 p2 w))) =
  (taken (rng (thermo w)) + (if in_range w (p1, p2) then 3 else 0))%nat.
Proof.
  unfold in_range; cbn [fst snd].
  destruct (Rlt_dec (pair_dist2 w p1 p2) (current_cutoff_sqr (thermo w))) as [Hlt | Hge].
  - rewrite (frictionThermoTDPD_in w p1 p2 Hlt), apply_pair_force_rng.
    unfold draw_noisevec, rng_call. cbn [snd taken].
    rewrite <- !Nat.add_succ_comm, Nat.add_0_r. reflexivity.
  - rewrite (frictionThermoTDPD_skip w p1 p2 (Rnot_lt_le _ _ Hge)).
    rewrite Nat.add_0_r. reflexivity.
Qed.

Lemma thermalize_pair_taken (w : World) (pr : ParticleRef * ParticleRef) :
  taken (rng (thermo (thermalize_pair w pr))) =
  (taken (rng (thermo w)) + (if in_range w pr then draws_per_pair (thermo w) else 0))%nat.
Proof.
  destruct pr as [p1 p2]. unfold thermalize_pair, draws_per_pair.
  destruct (Rgt_dec (gamma (thermo w)) 0) as [Hg | Hg].
  - pose proof (frictionThermoDPD_frame w p1 p2) as F.
    destruct (frame_thermo_fields _ _ F) as (_ & -> & _).
    destruct (Rgt_dec (tgamma (thermo w)) 0) as [Ht | Ht].
    + rewrite frictionThermoTDPD_taken, (frame_in_range _ _ _ F), frictionThermoDPD_taken.
      destruct (in_range w (p1, p2)); lia.
    + rewrite frictionThermoDPD_taken. destruct (in_range w (p1, p2)); lia.
  - destruct (Rgt_dec (tgamma (thermo w)) 0) as [Ht | Ht].
    + rewrite frictionThermoTDPD_taken. destruct (in_range w (p1, p2)); lia.
    + destruct (in_range w (p1, p2)); lia.
Qed.

Lemma pair_loop_taken (pairs : list (ParticleRef * ParticleRef)) :
  forall w : World,
    taken (rng (thermo (fold_left thermalize_pair pairs w))) =
    (taken (rng (thermo w)) +
     draws_per_pair (thermo w) * List.length (filter (in_range w) pairs))%nat.
Proof.
  induction pairs as [ | pr pairs IH ]; intros w.
  - cbn [fold_left filter List.length]. lia.
  - cbn [fold_left filter]. rewrite IH.
    pose proof (thermalize_pair_frame w pr) as F.
    rewrite (frame_draws_per_pair _ _ F), thermalize_pair_taken.
    rewrite (filter_ext _ _ (fun pr' => frame_in_range _ _ pr' F)).
    destruct (in_range w pr); cbn [List.length]; lia.
Qed.

(** X3: One [thermalize] pass takes from the generator exactly
    [draws_per_pair] numbers for every pair of the Verlet list that is
    inside the cutoff after the ghost update (one for the scalar kernel when
    [gamma > 0], three for the transverse kernel when [tgamma > 0]) and
    none for the others; the sequence of draws itself is untouched. *)
Theorem thermalize_draws (updateGhostsV : Storage -> Storage) (verletList : VerletList)
  (w : World) :
  let w0 := mkWorld (thermo w) (set_storage (sys w) (updateGhostsV (storage (sys w)))) in
  let w' := thermalize updateGhostsV verletList w in
  taken (rng (thermo w')) =
    (taken (rng (thermo w)) +
     draws_per_pair (thermo w) * List.length (filter (in_range w0) (getPairs verletList)))%nat /\
  draws (rng (thermo w')) = draws (rng (thermo w)).
Proof.
  cbv zeta. unfold thermalize. cbv zeta. split.
  - rewrite pair_loop_taken. reflexivity.
  - apply (pair_loop_frame (getPairs verletList)
             (mkWorld (thermo w) (set_storage (sys w) (updateGhostsV (storage (sys w)))))).
Qed.

(** ** Dispatch *)

(** X4: With neither coefficient positive (zero or negative alike) a
    [thermalize] pass is the ghost update and nothing more: no kernel runs,
    no force changes and no draw is taken, whatever the pair list. *)
Theorem thermalize_inactive (updateGhostsV : Storage -> Storage) (verletList : VerletList)
  (w : World) :
  gamma (thermo w) <= 0 -> tgamma (thermo w) <= 0 ->
  thermalize updateGhostsV verletList w =
  mkWorld (thermo w) (set_storage (sys w) (updateGhostsV (storage (sys w)))).
Proof.
  intros Hg Ht. unfold thermalize. cbv zeta.
  set (w0 := mkWorld (thermo w) (set_storage (sys w) (updateGhostsV (storage (sys w))))).
  assert (Hg0 : gamma (thermo w0) <= 0) by exact Hg.
  assert (Ht0 : tgamma (thermo w0) <= 0) by exact Ht.
  clearbody w0.
  induction (getPairs verletList) as [ | [p1 p2] pairs IH ]; [ reflexivity | ].
  cbn [fold_left]. unfold thermalize_pair at 2.
  destruct (Rgt_dec (gamma (thermo w0)) 0) as [Habs | _]; [ lra | ].
  destruct (Rgt_dec (tgamma (thermo w0)) 0) as [Habs | _]; [ lra | ].
  exact IH.
Qed.

Lemma thermalize_inactive_witness :
  thermalize (fun st => st) Example.verletList
    (mkWorld (setTGamma (-1) (setGamma 0 Example.thermostat)) Example.system) =
  mkWorld (setTGamma (-1) (setGamma 0 Example.thermostat))
          (set_storage Example.system Example.particles).
Proof.
  apply (thermalize_inactive (fun st => st) Example.verletList
           (mkWorld (setTGamma (-1) (setGamma 0 Example.thermostat)) Example.system));
    simpl; lra.
Defined.

(** ** The order of a pair *)

Lemma pair_dist2_sym (w : World) (p1 p2 : ParticleRef) :
  pair_dist2 w p2 p1 = pair_dist2 w p1 p2.
Proof. unfold pair_dist2, pair_r, V.sqr, V.dot; simpl; ring. Qed.

Lemma rhat_sym (w : World) (p1 p2 : ParticleRef) :
  rhat w p2 p1 = V.neg (rhat w p1 p2).
Proof.
  unfold rhat. rewrite pair_dist2_sym.
  unfold pair_r, V.div, V.neg, V.sub, Rdiv; apply Real3D_eq; simpl; ring.
Qed.

Lemma omega_sym (w : World) (p1 p2 : ParticleRef) : omega w p2 p1 = omega w p1 p2.
Proof. unfold omega. rewrite pair_dist2_sym. reflexivity. Qed.

Lemma pair_veldiff_sym (w : World) (p1 p2 : ParticleRef) :
  pair_veldiff w p2 p1 = V.neg (pair_veldiff w p1 p2).
Proof. unfold pair_veldiff; vec_ring. Qed.

Lemma DPD_f_sym (w : World) (p1 p2 : ParticleRef) :
  DPD_f w p2 p1 = V.neg (DPD_f w p1 p2).
Proof.
  unfold DPD_f. cbv zeta.
  rewrite rhat_sym, omega_sym, pair_veldiff_sym.
  unfold V.dot, V.scale, V.neg; apply Real3D_eq; simpl; ring.
Qed.

Lemma accumulate_stress_dyadic (s : System) (r f : Real3D) :
  dyadicP_xz (accumulate_stress s r f) =
    dyadicP_xz s + (if ifShear s && ifViscosity s then c0 r * c2 f else 0) /\
  dyadicP_zx (accumulate_stress s r f) =
    dyadicP_zx s + (if ifShear s && ifViscosity s then c2 r * c0 f else 0).
Proof.
  unfold accumulate_stress; destruct (ifShear s && ifViscosity s);
    split; simpl; ring.
Qed.

(** X5: The scalar kernel does not depend on the order in which the Verlet list
    names the two particles: called on [(p2, p1)] it leaves every particle,
    both stress accumulators and the generator exactly as the call on
    [(p1, p2)] does. *)
Theorem frictionThermoDPD_pair_order (w : World) (p1 p2 : ParticleRef) :
  let w12 := frictionThermoDPD p1 p2 w in
  let w21 := frictionThermoDPD p2 p1 w in
  (forall q, storage (sys w21) q = storage (sys w12) q) /\
  dyadicP_xz (sys w21) = dyadicP_xz (sys w12) /\
  dyadicP_zx (sys w21) = dyadicP_zx (sys w12) /\
  thermo w21 = thermo w12.
Proof.
  cbv zeta.
  destruct (Nat.eq_dec p1 p2) as [-> | Hne].
  { repeat split; reflexivity. }
  destruct (Rlt_dec (pair_dist2 w p1 p2) (current_cutoff_sqr (thermo w))) as [Hlt | Hge].
  - assert (Hlt' : pair_dist2 w p2 p1 < current_cutoff_sqr (thermo w))
      by (rewrite pair_dist2_sym; exact Hlt).
    rewrite (frictionThermoDPD_in w p1 p2 Hlt), (frictionThermoDPD_in w p2 p1 Hlt').
    rewrite DPD_f_sym, rhat_sym.
    split; [ | split; [ | split ] ].
    + intros q.
      destruct (Nat.eq_dec q p1) as [-> | H1]; [ | destruct (Nat.eq_dec q p2) as [-> | H2] ].
      * rewrite apply_pair_force_p1 by exact Hne.
        rewrite apply_pair_force_p2 by (intro E; apply Hne; symmetry; exact E).
        unfold set_force; f_equal; vec_ring.
      * rewrite apply_pair_force_p2 by exact Hne.
        rewrite apply_pair_force_p1 by (intro E; apply Hne; symmetry; exact E).
        unfold set_force; f_equal; vec_ring.
      * rewrite !apply_pair_force_other by assumption. reflexivity.
    + unfold apply_pair_force; cbv zeta; cbn [sys].
      rewrite !(proj1 (accumulate_stress_dyadic _ _ _)).
      cbn [dyadicP_xz ifShear ifViscosity set_storage].
      destruct (ifShear (sys w) && ifViscosity (sys w)); simpl; ring.
    + unfold apply_pair_force; cbv zeta; cbn [sys].
      rewrite !(proj2 (accumulate_stress_dyadic _ _ _)).
      cbn [dyadicP_zx ifShear ifViscosity set_storage].
      destruct (ifShear (sys w) && ifViscosity (sys w)); simpl; ring.
    + reflexivity.
  - apply Rnot_lt_le in Hge.
    assert (Hge' : current_cutoff_sqr (thermo w) <= pair_dist2 w p2 p1)
      by (rewrite pair_dist2_sym; exact Hge).
    rewrite (frictionThermoDPD_skip w p1 p2 Hge), (frictionThermoDPD_skip w p2 p1 Hge').
    repeat split; reflexivity.
Qed.

(** X6: For the transverse kernel the damping part changes sign with the order
    of the pair, as the scalar force does, but the random part does not: on
    [(p2, p1)] the same three draws push the two particles the opposite
    way. *)
Theorem frictionThermoTDPD_pair_order (w : World) (p1 p2 : ParticleRef) :
  TDPD_f_damp w p2 p1 = V.neg (TDPD_f_damp w p1 p2) /\
  TDPD_f_rand w p2 p1 = TDPD_f_rand w p1 p2.
Proof.
  unfold TDPD_f_damp, TDPD_f_rand.
  rewrite rhat_sym, omega_sym, pair_veldiff_sym.
  split; unfold project, V.scale, V.neg; apply Real3D_eq; simpl; ring.
Qed.

(** ** Galilean invariance *)

Lemma boost_pair_veldiff (c : Real3D) (w : World) (p1 p2 : ParticleRef) :
  pair_veldiff (boost c w) p1 p2 = pair_veldiff w p1 p2.
Proof. unfold pair_veldiff, boost, shift_velocities; vec_ring. Qed.

Lemma boost_DPD_f (c : Real3D) (w : World) (p1 p2 : ParticleRef) :
  DPD_f (boost c w) p1 p2 = DPD_f w p1 p2.
Proof.
  unfold DPD_f. cbv zeta. rewrite boost_pair_veldiff. reflexivity.
Qed.

Lemma boost_TDPD_f (c : Real3D) (w : World) (p1 p2 : ParticleRef) :
  TDPD_f_damp (boost c w) p1 p2 = TDPD_f_damp w p1 p2 /\
  TDPD_f_rand (boost c w) p1 p2 = TDPD_f_rand w p1 p2.
Proof.
  unfold TDPD_f_damp, TDPD_f_rand. rewrite boost_pair_veldiff. split; reflexivity.
Qed.

Lemma boost_apply_pair_force (c : Real3D) (w : World) (p1 p2 : ParticleRef) g r f :
  (forall q, storage (sys (apply_pair_force (boost c w) p1 p2 g r f)) q =
             shift_velocities c (storage (sys (apply_pair_force w p1 p2 g r f))) q) /\
  dyadicP_xz (sys (apply_pair_force (boost c w) p1 p2 g r f)) =
    dyadicP_xz (sys (apply_pair_force w p1 p2 g r f)) /\
  dyadicP_zx (sys (apply_pair_force (boost c w) p1 p2 g r f)) =
    dyadicP_zx (sys (apply_pair_force w p1 p2 g r f)) /\
  thermo (apply_pair_force (boost c w) p1 p2 g r f) =
    thermo (apply_pair_force w p1 p2 g r f).
Proof.
  unfold apply_pair_force. cbv zeta. cbn [sys thermo boost].
  split; [ | split; [ | split ] ].
  - intros q. rewrite !storage_accumulate_stress. cbn [storage set_storage].
    unfold force_sub, force_add, write, shift_velocities, set_force.
    destruct (Nat.eqb q p2), (Nat.eqb q p1), (Nat.eqb p2 p1); reflexivity.
  - rewrite !(proj1 (accumulate_stress_dyadic _ _ _)). reflexivity.
  - rewrite !(proj2 (accumulate_stress_dyadic _ _ _)). reflexivity.
  - reflexivity.
Qed.

(** X7: Both kernels are Galilean invariant: adding one velocity [c] to every
    particle changes neither the forces they apply, nor the stress they
    accumulate, nor the draws they take.  Running a kernel in the boosted
    world gives the boosted result of running it in the original one. *)
Theorem kernels_galilean_invariant (c : Real3D) (w : World) (p1 p2 : ParticleRef) :
  ((forall q, storage (sys (frictionThermoDPD p1 p2 (boost c w))) q =
              shift_velocities c (storage (sys (frictionThermoDPD p1 p2 w))) q) /\
   dyadicP_xz (sys (frictionThermoDPD p1 p2 (boost c w))) =
     dyadicP_xz (sys (frictionThermoDPD p1 p2 w)) /\
   dyadicP_zx (sys (frictionThermoDPD p1 p2 (boost c w))) =
     dyadicP_zx (sys (frictionThermoDPD p1 p2 w)) /\
   thermo (frictionThermoDPD p1 p2 (boost c w)) = thermo (frictionThermoDPD p1 p2 w)) /\
  ((forall q, storage (sys (frictionThermoTDPD p1 p2 (boost c w))) q =
              shift_velocities c (storage (sys (frictionThermoTDPD p1 p2 w))) q) /\
   dyadicP_xz (sys (frictionThermoTDPD p1 p2 (boost c w))) =
     dyadicP_xz (sys (frictionThermoTDPD p1 p2 w)) /\
   dyadicP_zx (sys (frictionThermoTDPD p1 p2 (boost c w))) =
     dyadicP_zx (sys (frictionThermoTDPD p1 p2 w)) /\
   thermo (frictionThermoTDPD p1 p2 (boost c w)) = thermo (frictionThermoTDPD p1 p2 w)).
Proof.
  destruct (Rlt_dec (pair_dist2 w p1 p2) (current_cutoff_sqr (thermo w))) as [Hlt | Hge].
  - assert (Hlt' : pair_dist2 (boost c w) p1 p2 < current_cutoff_sqr (thermo (boost c w)))
      by exact Hlt.
    rewrite (frictionThermoDPD_in w p1 p2 Hlt), (frictionThermoDPD_in _ p1 p2 Hlt').
    rewrite (frictionThermoTDPD_in w p1 p2 Hlt), (frictionThermoTDPD_in _ p1 p2 Hlt').
    rewrite boost_DPD_f.
    rewrite (proj1 (boost_TDPD_f c w p1 p2)), (proj2 (boost_TDPD_f c w p1 p2)).
    split; apply boost_apply_pair_force.
  - apply Rnot_lt_le in Hge.
    assert (Hge' : current_cutoff_sqr (thermo (boost c w)) <= pair_dist2 (boost c w) p1 p2)
      by exact Hge.
    rewrite (frictionThermoDPD_skip w p1 p2 Hge), (frictionThermoDPD_skip _ p1 p2 Hge').
    rewrite (frictionThermoTDPD_skip w p1 p2 Hge), (frictionThermoTDPD_skip _ p1 p2 Hge').
    split; repeat split; reflexivity.
Qed.

(** ** The cutoff state and the weight *)

(** X8: [current_cutoff_sqr] is the square of [current_cutoff] from construction
    on: the constructor and [initialize] establish it, and the setters,
    [heatUp], [coolDown] and a [thermalize] pass keep it. *)
Theorem cutoff_consistent_invariant :
  (forall raw system verletList t,
     DPDThermostat_new raw system verletList = inr t -> cutoff_consistent t) /\
  (forall verletList system dt t, cutoff_consistent (initialize verletList system dt t)) /\
  (forall t x, cutoff_consistent t ->
     cutoff_consistent (setGamma x t) /\ cutoff_consistent (setTGamma x t) /\
     cutoff_consistent (setTemperature x t) /\
     cutoff_consistent (heatUp t) /\ cutoff_consistent (coolDown t)) /\
  (forall updateGhostsV verletList w,
     cutoff_consistent (thermo w) ->
     cutoff_consistent (thermo (thermalize updateGhostsV verletList w))).
Proof.
  unfold cutoff_consistent.
  split; [ | split; [ | split ] ].
  - intros raw system verletList t. unfold DPDThermostat_new.
    destruct (sys_rng system); [ | discriminate ].
    intros E; injection E as <-. reflexivity.
  - intros; reflexivity.
  - intros t x H. repeat split; exact H.
  - intros updateGhostsV verletList w H.
    unfold thermalize. cbv zeta.
    destruct (pair_loop_frame (getPairs verletList)
                (mkWorld (thermo w)
                   (set_storage (sys w) (updateGhostsV (storage (sys w)))))) as (Ht & _).
    rewrite Ht. exact H.
Qed.

Lemma in_range_dist_lt (w : World) (p1 p2 : ParticleRef) :
  cutoff_consistent (thermo w) ->
  pair_dist2 w p1 p2 < current_cutoff_sqr (thermo w) ->
  0 <= sqrt (pair_dist2 w p1 p2) /\
  sqrt (pair_dist2 w p1 p2) * sqrt (pair_dist2 w p1 p2) <
  current_cutoff (thermo w) * current_cutoff (thermo w).
Proof.
  unfold cutoff_consistent. intros Hc Hlt.
  split; [ apply sqrt_pos | ].
  rewrite sqrt_sqrt by (apply sqr_nonneg).
  rewrite <- Hc. exact Hlt.
Qed.

(** X9: With a positive cutoff every pair that passes the guard has a weight
    [omega] in (0, 1]: the distance is below the cutoff, so the weight never
    changes sign and never exceeds its value at contact. *)
Theorem omega_bounds (w : World) (p1 p2 : ParticleRef) :
  cutoff_consistent (thermo w) ->
  0 < current_cutoff (thermo w) ->
  pair_dist2 w p1 p2 < current_cutoff_sqr (thermo w) ->
  sqrt (pair_dist2 w p1 p2) < current_cutoff (thermo w) /\
  0 < omega w p1 p2 <= 1.
Proof.
  intros Hc Hpos Hlt.
  destruct (in_range_dist_lt w p1 p2 Hc Hlt) as [Hd Hdd].
  set (d := sqrt (pair_dist2 w p1 p2)) in *.
  set (c := current_cutoff (thermo w)) in *.
  assert (Hdc : d < c) by nra.
  split; [ exact Hdc | ].
  unfold omega. fold d. fold c.
  assert (Hi : 0 < / c) by (apply Rinv_0_lt_compat; exact Hpos).
  assert (Hci : c * / c = 1) by (apply Rinv_r; lra).
  unfold Rdiv. split; nra.
Qed.

Lemma example_consistent : cutoff_consistent (thermo Example.world).
Proof. reflexivity. Qed.

Lemma example_cutoff_pos : 0 < current_cutoff (thermo Example.world).
Proof. simpl; lra. Qed.

Lemma omega_bounds_witness : 0 < omega Example.world 0%nat 1%nat <= 1.
Proof.
  apply (omega_bounds Example.world 0%nat 1%nat
           example_consistent example_cutoff_pos example_in_cutoff).
Defined.

(** X10: A pair that passes the guard never divides by a zero cutoff; and when
    the cutoff is zero (verlet cutoff equal to the skin) no pair passes the
    guard at all: both kernels return the world unchanged for every pair. *)
Theorem zero_cutoff_inert (w : World) (p1 p2 : ParticleRef) :
  cutoff_consistent (thermo w) ->
  (pair_dist2 w p1 p2 < current_cutoff_sqr (thermo w) -> current_cutoff (thermo w) <> 0) /\
  (current_cutoff (thermo w) = 0 ->
   frictionThermoDPD p1 p2 w = w /\ frictionThermoTDPD p1 p2 w = w).
Proof.
  intros Hc.
  assert (Hz : current_cutoff (thermo w) = 0 ->
               current_cutoff_sqr (thermo w) <= pair_dist2 w p1 p2).
  { intros E. unfold cutoff_consistent in Hc. rewrite Hc, E.
    pose proof (sqr_nonneg (pair_r w p1 p2)) as Hn. unfold pair_dist2. lra. }
  split.
  - intros Hlt E. specialize (Hz E). lra.
  - intros E. split.
    + apply frictionThermoDPD_skip, Hz, E.
    + apply frictionThermoTDPD_skip, Hz, E.
Qed.

Lemma zero_cutoff_inert_witness :
  let t := initialize (mkVerletList 0.3 []) Example.system 0.01 Example.thermostat in
  frictionThermoDPD 0%nat 1%nat (mkWorld t Example.system) = mkWorld t Example.system.
Proof.
  cbv zeta.
  apply (zero_cutoff_inert
           (mkWorld (initialize (mkVerletList 0.3 []) Example.system 0.01 Example.thermostat)
                    Example.system) 0%nat 1%nat).
  - reflexivity.
  - simpl; lra.
Defined.



(** ** Stress accumulation *)


(** ** Dissipation *)


Lemma dot_scale_l (s : R) (a b : Real3D) : V.dot (V.scale s a) b = s * V.dot a b.
Proof. unfold V.dot; simpl; ring. Qed.

(** Lagrange's identity for a unit vector: what the projector leaves of [v]
    has a non-negative product with [v]. *)
Lemma project_nonneg (r v : Real3D) :
  V.sqr r = 1 -> 0 <= V.dot (project r v) v.
Proof.
  intros H.
  replace (V.dot (project r v) v)
    with ((c1 r * c2 v - c2 r * c1 v) * (c1 r * c2 v - c2 r * c1 v) +
          (c2 r * c0 v - c0 r * c2 v) * (c2 r * c0 v - c0 r * c2 v) +
          (c0 r * c1 v - c1 r * c0 v) * (c0 r * c1 v - c1 r * c0 v) +
          (1 - V.sqr r) * V.sqr v)
    by (unfold V.sqr, V.dot, project; simpl; ring).
  rewrite H.
  set (a := c1 r * c2 v - c2 r * c1 v).
  set (b := c2 r * c0 v - c0 r * c2 v).
  set (c := c0 r * c1 v - c1 r * c0 v).
  generalize (V.sqr v); intros x.
  nra.
Qed.




(** X14: The damping of the transverse kernel is dissipative too: with
    [pref3 >= 0] and a positive distance, [f_damp . (v1 - v2) >= 0], and the
    kernel applies [- f_damp]. *)
Theorem frictionThermoTDPD_dissipative (w : World) (p1 p2 : ParticleRef) :
  0 <= pref3 (thermo w) ->
  0 < sqrt (pair_dist2 w p1 p2) ->
  0 <= V.dot (TDPD_f_damp w p1 p2) (pair_veldiff w p1 p2).
Proof.
  intros Hp Hdist.
  assert (Hunit : V.sqr (rhat w p1 p2) = 1)
    by (apply unit_length, dist_pos_dist2, Hdist).
  unfold TDPD_f_damp. rewrite dot_scale_l.
  pose proof (project_nonneg (rhat w p1 p2) (pair_veldiff w p1 p2) Hunit) as Hn.
  apply Rmult_le_pos; [ | exact Hn ].
  apply Rmult_le_pos; [ exact Hp | nra ].
Qed.

Lemma example_pref3 : 0 <= pref3 (thermo Example.world).
Proof. simpl; lra. Qed.

Lemma frictionThermoTDPD_dissipative_witness :
  0 <= V.dot (TDPD_f_damp Example.world 0%nat 1%nat)
             (pair_veldiff Example.world 0%nat 1%nat).
Proof.
  apply (frictionThermoTDPD_dissipative Example.world 0%nat 1%nat
           example_pref3 example_dist_pos).
Defined.

(** ** The two channels *)

(** X15: The force of the scalar kernel lies along the pair axis and the force of
    the transverse kernel across it: at positive distance the two are
    orthogonal, whatever the coefficients, velocities and draws. *)
Theorem channels_orthogonal (w : World) (p1 p2 : ParticleRef) :
  0 < sqrt (pair_dist2 w p1 p2) ->
  V.dot (DPD_f w p1 p2) (V.sub (TDPD_f_rand w p1 p2) (TDPD_f_damp w p1 p2)) = 0.
Proof.
  intros Hdist.
  assert (Hunit : V.sqr (rhat w p1 p2) = 1)
    by (apply unit_length, dist_pos_dist2, Hdist).
  unfold DPD_f. cbv zeta. rewrite dot_scale_l, dot_sub_r.
  unfold TDPD_f_rand, TDPD_f_damp.
  rewrite !dot_scale_r, !(project_orthogonal _ _ Hunit). ring.
Qed.

Lemma channels_orthogonal_witness :
  V.dot (DPD_f Example.world 0%nat 1%nat)
        (V.sub (TDPD_f_rand Example.world 0%nat 1%nat)
               (TDPD_f_damp Example.world 0%nat 1%nat)) = 0.
Proof. apply (channels_orthogonal Example.world 0%nat 1%nat example_dist_pos). Defined.

(** ** The prefactors *)

Lemma noise_prefactor_sqr (T g dt : R) :
  0 <= T -> 0 <= g -> 0 < dt ->
  0 <= 24 * T * g / dt /\
  sqrt (24 * T * g / dt) * sqrt (24 * T * g / dt) * dt = 24 * T * g.
Proof.
  intros HT Hg Hdt.
  assert (Hi : 0 < / dt) by (apply Rinv_0_lt_compat; exact Hdt).
  assert (Hn : 0 <= 24 * T * g) by nra.
  assert (Hq : 0 <= 24 * T * g / dt) by (unfold Rdiv; nra).
  split; [ exact Hq | ].
  rewrite sqrt_sqrt by exact Hq. field. lra.
Qed.

(** X16: Fluctuation-dissipation: for non-negative temperature and coefficients
    and a positive time step, [initialize] leaves non-negative noise
    prefactors with [pref2^2 dt = 24 temperature gamma] and
    [pref4^2 dt = 24 temperature tgamma]. *)
Theorem initialize_fluctuation_dissipation (verletList : VerletList) (system : System)
  (dt : R) (t : DPDThermostat) :
  0 <= temperature t -> 0 <= gamma t -> 0 <= tgamma t -> 0 < dt ->
  let t' := initialize verletList system dt t in
  0 <= pref2 t' /\ pref2 t' * pref2 t' * dt = 24 * temperature t * pref1 t' /\
  0 <= pref4 t' /\ pref4 t' * pref4 t' * dt = 24 * temperature t * pref3 t'.
Proof.
  intros HT Hg Htg Hdt. cbv zeta. unfold initialize. cbn [pref1 pref2 pref3 pref4].
  split; [ apply sqrt_pos | ].
  split; [ apply (noise_prefactor_sqr _ _ _ HT Hg Hdt) | ].
  split; [ apply sqrt_pos | ].
  apply (noise_prefactor_sqr _ _ _ HT Htg Hdt).
Qed.

Lemma initialize_fluctuation_dissipation_witness :
  pref2 Example.thermostat * pref2 Example.thermostat * 0.01 = 24 * 1 * 1.
Proof.
  apply (initialize_fluctuation_dissipation Example.verletList Example.system 0.01
           (setTemperature 1 (setTGamma 1 (setGamma 1
              (mkDPD 0 7 0 1 1 0 0 0 0 0 0 Example.generator)))));
    simpl; lra.
Defined.

(** X17: The noise prefactors scale as the square root of the temperature:
    setting the temperature to [k] times its value before [initialize]
    multiplies [pref2] and [pref4] by [sqrt k] and leaves the friction
    prefactors alone. *)
Theorem initialize_temperature_scaling (verletList : VerletList) (system : System)
  (dt k : R) (t : DPDThermostat) :
  0 <= k -> 0 <= temperature t -> 0 <= gamma t -> 0 <= tgamma t -> 0 < dt ->
  let cold := initialize verletList system dt t in
  let hot := initialize verletList system dt (setTemperature (k * temperature t) t) in
  pref2 hot = sqrt k * pref2 cold /\ pref4 hot = sqrt k * pref4 cold /\
  pref1 hot = pref1 cold /\ pref3 hot = pref3 cold.
Proof.
  intros Hk _ _ _ _. cbv zeta. unfold initialize, setTemperature.
  cbn [pref1 pref2 pref3 pref4 gamma tgamma temperature].
  split; [ | split; [ | split; reflexivity ] ].
  - rewrite <- (sqrt_mult_alt _ _ Hk). f_equal. unfold Rdiv; ring.
  - rewrite <- (sqrt_mult_alt _ _ Hk). f_equal. unfold Rdiv; ring.
Qed.

Lemma initialize_temperature_scaling_witness :
  pref2 (initialize Example.verletList Example.system 0.01
           (setTemperature (2 * temperature Example.thermostat) Example.thermostat)) =
  sqrt 2 * pref2 (initialize Example.verletList Example.system 0.01 Example.thermostat).
Proof.
  apply (initialize_temperature_scaling Example.verletList Example.system 0.01 2
           Example.thermostat); simpl; lra.
Defined.

(** ** Channels switched off *)








(** ** The heat window *)

(** X20: Between [heatUp] and [coolDown] the noise prefactors are [sqrt 3] times
    larger, i.e. the noise variance is tripled, and the friction is what it
    was: the transverse random part is scaled by [sqrt 3], the transverse
    damping is unchanged, and the scalar force gains [sqrt 3 - 1] times its
    noise term. *)
Theorem heat_window_forces (w : World) (p1 p2 : ParticleRef) :
  let hot := mkWorld (heatUp (thermo w)) (sys w) in
  let noise := pref2 (thermo w) * omega w p1 p2 * (fst (rng_call (rng (thermo w))) - 0.5) in
  pref2 (thermo hot) * pref2 (thermo hot) = 3 * (pref2 (thermo w) * pref2 (thermo w)) /\
  pref4 (thermo hot) * pref4 (thermo hot) = 3 * (pref4 (thermo w) * pref4 (thermo w)) /\
  TDPD_f_damp hot p1 p2 = TDPD_f_damp w p1 p2 /\
  TDPD_f_rand hot p1 p2 = V.scale (sqrt 3) (TDPD_f_rand w p1 p2) /\
  DPD_f hot p1 p2 =
    V.add (DPD_f w p1 p2) (V.scale ((sqrt 3 - 1) * noise) (rhat w p1 p2)).
Proof.
  cbv zeta.
  assert (H3 : sqrt 3 * sqrt 3 = 3) by (apply sqrt_sqrt; lra).
  split; [ | split; [ | split; [ | split ] ] ].
  - unfold heatUp. cbn [thermo pref2]. nra.
  - unfold heatUp. cbn [thermo pref4]. nra.
  - reflexivity.
  - unfold TDPD_f_rand, heatUp. cbn [thermo pref4 rng].
    change (omega (mkWorld _ (sys w)) p1 p2) with (omega w p1 p2).
    change (rhat (mkWorld _ (sys w)) p1 p2) with (rhat w p1 p2).
    vec_ring.
  - unfold DPD_f. cbv zeta. unfold heatUp. cbn [thermo pref1 pref2 rng].
    change (omega (mkWorld _ (sys w)) p1 p2) with (omega w p1 p2).
    change (rhat (mkWorld _ (sys w)) p1 p2) with (rhat w p1 p2).
    change (pair_veldiff (mkWorld _ (sys w)) p1 p2) with (pair_veldiff w p1 p2).
    vec_ring.
Qed.

(** X21: The heat window does not nest and is tied to the prefactors it saved:
    a second [heatUp] overwrites the buffers, so one [coolDown] then leaves
    the prefactors [sqrt 3] too large and a second [coolDown] does not
    repair it; and an [initialize] inside the window is undone by the
    [coolDown] that closes it, which brings back the prefactors from before
    the window. *)
Theorem heat_window_misuse (verletList : VerletList) (system : System) (dt : R)
  (t : DPDThermostat) :
  (pref2 (coolDown (heatUp (heatUp t))) = pref2 t * sqrt 3 /\
   pref4 (coolDown (heatUp (heatUp t))) = pref4 t * sqrt 3 /\
   coolDown (coolDown (heatUp (heatUp t))) = coolDown (heatUp (heatUp t))) /\
  (pref2 (coolDown (initialize verletList system dt (heatUp t))) = pref2 t /\
   pref4 (coolDown (initialize verletList system dt (heatUp t))) = pref4 t /\
   pref1 (coolDown (initialize verletList system dt (heatUp t))) = gamma t /\
   pref3 (coolDown (initialize verletList system dt (heatUp t))) = tgamma t).
Proof. repeat split. Qed.

(** The start of a run, [initialize] then [heatUp] then [coolDown], ends
    with the object [initialize] produced, up to the two buffers, which now
    hold its noise prefactors. *)
Lemma run_start_sequence (verletList : VerletList) (system : System) (dt : R)
  (t : DPDThermostat) :
  let t0 := initialize verletList system dt t in
  coolDown (heatUp t0) =
  mkDPD (gamma t0) (tgamma t0) (temperature t0) (current_cutoff t0) (current_cutoff_sqr t0)
        (pref1 t0) (pref2 t0) (pref3 t0) (pref4 t0) (pref2 t0) (pref4 t0) (rng t0).
Proof. reflexivity. Qed.

(** ** Unassigned members *)

(** X22: The constructor leaves seven members unassigned.  Once [setTGamma],
    [initialize] and [heatUp] have run, none of them is left: the object no
    longer depends on what the memory held.  After [setTGamma] and
    [initialize] alone, only the two buffers still do, and the kernels do
    not read them. *)
Theorem unassigned_members_overwritten (raw1 raw2 : Uninit) (system : System)
  (verletList : VerletList) (t1 t2 : DPDThermostat) (x dt : R) :
  DPDThermostat_new raw1 system verletList = inr t1 ->
  DPDThermostat_new raw2 system verletList = inr t2 ->
  heatUp (initialize verletList system dt (setTGamma x t1)) =
  heatUp (initialize verletList system dt (setTGamma x t2)) /\
  (forall s p1 p2,
     sys (frictionThermoDPD p1 p2
            (mkWorld (initialize verletList system dt (setTGamma x t1)) s)) =
     sys (frictionThermoDPD p1 p2
            (mkWorld (initialize verletList system dt (setTGamma x t2)) s)) /\
     sys (frictionThermoTDPD p1 p2
            (mkWorld (initialize verletList system dt (setTGamma x t1)) s)) =
     sys (frictionThermoTDPD p1 p2
            (mkWorld (initialize verletList system dt (setTGamma x t2)) s))).
Proof.
  unfold DPDThermostat_new.
  destruct (sys_rng system) as [g | ]; [ | discriminate ].
  intros E1 E2; injection E1 as <-; injection E2 as <-.
  split; [ reflexivity | ].
  intros s p1 p2. unfold frictionThermoDPD, frictionThermoTDPD. cbv zeta.
  cbn [thermo sys current_cutoff_sqr initialize setTGamma].
  destruct (Rlt_dec _ _); split; reflexivity.
Qed.

Lemma unassigned_members_overwritten_witness :
  exists t1 t2,
    heatUp (initialize Example.verletList Example.system 0.01 (setTGamma 1 t1)) =
    heatUp (initialize Example.verletList Example.system 0.01 (setTGamma 1 t2)) /\
    tgamma t1 <> tgamma t2.
Proof.
  destruct (DPDThermostat_new Example.raw Example.system Example.verletList)
    as [e | t1] eqn:E1; [ discriminate | ].
  destruct (DPDThermostat_new (mkUninit 9 1 2 3 4 5 6) Example.system Example.verletList)
    as [e | t2] eqn:E2; [ discriminate | ].
  exists t1, t2. split.
  - apply (unassigned_members_overwritten Example.raw (mkUninit 9 1 2 3 4 5 6)
             Example.system Example.verletList t1 t2 1 0.01 E1 E2).
  - injection E1 as <-. injection E2 as <-. simpl. lra.
Defined.

(** ** Setters between two runs *)

Lemma frictionThermoDPD_reconfigure x y z w p1 p2 :
  frictionThermoDPD p1 p2 (reconfigure_world x y z w) =
  reconfigure_world x y z (frictionThermoDPD p1 p2 w).
Proof.
  unfold frictionThermoDPD, reconfigure_world. cbv zeta.
  cbn [thermo sys current_cutoff_sqr reconfigure setGamma setTGamma setTemperature].
  destruct (Rlt_dec _ _); reflexivity.
Qed.

Lemma frictionThermoTDPD_reconfigure x y z w p1 p2 :
  frictionThermoTDPD p1 p2 (reconfigure_world x y z w) =
  reconfigure_world x y z (frictionThermoTDPD p1 p2 w).
Proof.
  unfold frictionThermoTDPD, reconfigure_world. cbv zeta.
  cbn [thermo sys current_cutoff_sqr reconfigure setGamma setTGamma setTemperature].
  destruct (Rlt_dec _ _); reflexivity.
Qed.

Lemma thermalize_pair_reconfigure x y z (w : World) pr :
  (gamma (thermo w) > 0 <-> x > 0) -> (tgamma (thermo w) > 0 <-> y > 0) ->
  thermalize_pair (reconfigure_world x y z w) pr =
  reconfigure_world x y z (thermalize_pair w pr).
Proof.
  intros Hx Hy. destruct pr as [p1 p2]. unfold thermalize_pair.
  change (gamma (thermo (reconfigure_world x y z w))) with x.
  destruct (Rgt_dec x 0) as [Px | Nx]; destruct (Rgt_dec (gamma (thermo w)) 0) as [Pg | Ng];
    try (exfalso; tauto).
  - rewrite frictionThermoDPD_reconfigure.
    change (tgamma (thermo (reconfigure_world x y z (frictionThermoDPD p1 p2 w)))) with y.
    rewrite (proj2 (frictionThermoDPD_config w p1 p2)).
    destruct (Rgt_dec y 0) as [Py | Ny];
      destruct (Rgt_dec (tgamma (thermo w)) 0) as [Pt | Nt]; try (exfalso; tauto).
    + apply frictionThermoTDPD_reconfigure.
    + reflexivity.
  - change (tgamma (thermo (reconfigure_world x y z w))) with y.
    destruct (Rgt_dec y 0) as [Py | Ny];
      destruct (Rgt_dec (tgamma (thermo w)) 0) as [Pt | Nt]; try (exfalso; tauto).
    + apply frictionThermoTDPD_reconfigure.
    + reflexivity.
Qed.

(** X23: The setters act on the dispatch at once but on the forces only at the
    next [initialize]: as long as the new [gamma] and [tgamma] are positive
    exactly when the old ones were, a [thermalize] pass after
    [setGamma], [setTGamma] and [setTemperature] applies the same forces,
    accumulates the same stress and takes the same draws as without them. *)
Theorem setters_wait_for_initialize (updateGhostsV : Storage -> Storage)
  (verletList : VerletList) (x y z : R) (w : World) :
  (gamma (thermo w) > 0 <-> x > 0) -> (tgamma (thermo w) > 0 <-> y > 0) ->
  thermalize updateGhostsV verletList (reconfigure_world x y z w) =
  reconfigure_world x y z (thermalize updateGhostsV verletList w).
Proof.
  intros Hx Hy. unfold thermalize. cbv zeta.
  change (mkWorld (thermo (reconfigure_world x y z w))
            (set_storage (sys (reconfigure_world x y z w))
               (updateGhostsV (storage (sys (reconfigure_world x y z w))))))
    with (reconfigure_world x y z
            (mkWorld (thermo w) (set_storage (sys w) (updateGhostsV (storage (sys w)))))).
  set (w0 := mkWorld (thermo w) (set_storage (sys w) (updateGhostsV (storage (sys w))))).
  assert (Hx0 : gamma (thermo w0) > 0 <-> x > 0) by exact Hx.
  assert (Hy0 : tgamma (thermo w0) > 0 <-> y > 0) by exact Hy.
  clearbody w0. revert w0 Hx0 Hy0.
  induction (getPairs verletList) as [ | pr pairs IH ]; intros w0 Hx0 Hy0;
    [ reflexivity | ].
  cbn [fold_left]. rewrite thermalize_pair_reconfigure by assumption.
  destruct (frame_thermo_fields _ _ (thermalize_pair_frame w0 pr)) as (Eg & Et & _).
  apply IH; [ rewrite Eg | rewrite Et ]; assumption.
Qed.

Lemma setters_wait_for_initialize_witness :
  thermalize (fun st => st) Example.verletList
    (reconfigure_world 5 6 7 Example.world) =
  reconfigure_world 5 6 7 (thermalize (fun st => st) Example.verletList Example.world).
Proof.
  apply (setters_wait_for_initialize (fun st => st) Example.verletList 5 6 7
           Example.world); simpl; split; intros _; lra.
Defined.

(** ** Connections *)

Lemma connection_disconnect_idem (c : Connection) (sig : Signal) :
  connection_disconnect c (connection_disconnect c sig) = connection_disconnect c sig.
Proof.
  destruct c as [id | ]; [ | reflexivity ]. cbn [connection_disconnect].
  induction sig as [ | e sig IH ]; [ reflexivity | ].
  cbn [filter]. destruct (negb (Nat.eqb (fst e) id)) eqn:E.
  - cbn [filter]. rewrite E, IH. reflexivity.
  - exact IH.
Qed.

Lemma disconnect_below (n id : nat) (sig : Signal) :
  signal_below n sig -> (n <= id)%nat ->
  connection_disconnect (Some id) sig = sig.
Proof.
  intros Hb Hle. cbn [connection_disconnect].
  induction Hb as [ | e sig He Hb IH ]; [ reflexivity | ].
  cbn [filter].
  assert (E : Nat.eqb (fst e) id = false) by (apply Nat.eqb_neq; lia).
  rewrite E. cbn [negb]. rewrite IH. reflexivity.
Qed.

Lemma disconnect_last (n : nat) (sig : Signal) (slot : Slot) :
  signal_below n sig ->
  connection_disconnect (Some n) (signal_connect sig n slot) = sig.
Proof.
  intros Hb. unfold signal_connect. cbn [connection_disconnect].
  rewrite filter_app. cbn [filter fst]. rewrite Nat.eqb_refl. cbn [negb].
  rewrite app_nil_r. apply (disconnect_below n n sig Hb). lia.
Qed.

Lemma signal_below_weaken (n m : nat) (sig : Signal) :
  signal_below n sig -> (n <= m)%nat -> signal_below m sig.
Proof.
  unfold signal_below. intros Hb Hle.
  apply (Forall_impl _ (P := fun e => (fst e < n)%nat)); [ intros e He; lia | exact Hb ].
Qed.

Lemma signal_below_connect (n m : nat) (sig : Signal) (slot : Slot) :
  signal_below n sig -> (n <= m)%nat -> signal_below (S m) (signal_connect sig m slot).
Proof.
  intros Hb Hle. unfold signal_below, signal_connect.
  apply Forall_app; split.
  - apply (signal_below_weaken n (S m) sig Hb). lia.
  - constructor; [ cbn [fst]; lia | constructor ].
Qed.

(** X24: [disconnect] is safe to repeat and safe on an object that was never
    connected: a second call changes nothing, and with empty connection
    members the integrator is left exactly as it was. *)
Theorem disconnect_idempotent (c : Connections) (i : Integrator) :
  disconnect c (disconnect c i) = disconnect c i /\
  disconnect no_connections i = i.
Proof.
  split.
  - unfold disconnect.
    cbn [runInit recalc1 recalc2 aftInitF next_connection].
    rewrite !connection_disconnect_idem. reflexivity.
  - destruct i; reflexivity.
Qed.

(** X25: [connect] puts the four member functions at the back of their signals,
    [initialize] on [runInit], [heatUp] on [recalc1], [coolDown] on
    [recalc2] and [thermalize] on [aftInitF]; a [disconnect] after it gives
    every signal back as it was, slots of other objects included. *)
Theorem connect_disconnect_roundtrip (c : Connections) (i : Integrator) :
  well_numbered i ->
  let n := next_connection i in
  let c' := fst (connect c i) in
  let i' := snd (connect c i) in
  (runInit i' = runInit i ++ [(n, slot_initialize)] /\
   recalc1 i' = recalc1 i ++ [(S n, slot_heatUp)] /\
   recalc2 i' = recalc2 i ++ [(S (S n), slot_coolDown)] /\
   aftInitF i' = aftInitF i ++ [(S (S (S n)), slot_thermalize)]) /\
  well_numbered i' /\
  (runInit (disconnect c' i') = runInit i /\
   recalc1 (disconnect c' i') = recalc1 i /\
   recalc2 (disconnect c' i') = recalc2 i /\
   aftInitF (disconnect c' i') = aftInitF i).
Proof.
  intros (H1 & H2 & H3 & H4). cbv zeta. unfold connect. cbv zeta. cbn [fst snd].
  split; [ repeat split | split ].
  - unfold well_numbered. cbn [runInit recalc1 recalc2 aftInitF next_connection].
    repeat split.
    + eapply signal_below_weaken; [ apply (signal_below_connect _ _ _ _ H1) | ]; lia.
    + eapply signal_below_weaken; [ apply (signal_below_connect _ _ _ _ H2) | ]; lia.
    + eapply signal_below_weaken; [ apply (signal_below_connect _ _ _ _ H3) | ]; lia.
    + apply (signal_below_connect _ _ _ _ H4); lia.
  - unfold disconnect.
    cbn [runInit recalc1 recalc2 aftInitF _initialize _heatUp _coolDown _thermalize].
    repeat split; apply disconnect_last.
    + exact H1.
    + apply (signal_below_weaken _ _ _ H2); lia.
    + apply (signal_below_weaken _ _ _ H3); lia.
    + apply (signal_below_weaken _ _ _ H4); lia.
Qed.

Lemma example_integrator_numbered :
  well_numbered (mkIntegrator [(0%nat, slot_foreign 1)] [] [] [(1%nat, slot_foreign 1)] 2).
Proof.
  unfold well_numbered, signal_below; cbn [runInit recalc1 recalc2 aftInitF next_connection].
  repeat split; repeat constructor.
Qed.

Lemma connect_disconnect_roundtrip_witness :
  let i := mkIntegrator [(0%nat, slot_foreign 1)] [] [] [(1%nat, slot_foreign 1)] 2 in
  runInit (disconnect (fst (connect no_connections i)) (snd (connect no_connections i))) =
  runInit i.
Proof.
  cbv zeta.
  apply (connect_disconnect_roundtrip no_connections
           (mkIntegrator [(0%nat, slot_foreign 1)] [] [] [(1%nat, slot_foreign 1)] 2)
           example_integrator_numbered).
Defined.

(** X26: [connect] does not release what the object was connected to: after two
    calls in a row the connection members designate the second set of
    slots only, and [disconnect] removes that set and leaves the first one
    connected, so each signal still calls the member function once. *)
Theorem connect_twice_leaves_slots (c : Connections) (i : Integrator) :
  well_numbered i ->
  let n := next_connection i in
  let c1 := fst (connect c i) in
  let i1 := snd (connect c i) in
  let c2 := fst (connect c1 i1) in
  let i2 := snd (connect c1 i1) in
  runInit (disconnect c2 i2) = runInit i ++ [(n, slot_initialize)] /\
  recalc1 (disconnect c2 i2) = recalc1 i ++ [(S n, slot_heatUp)] /\
  recalc2 (disconnect c2 i2) = recalc2 i ++ [(S (S n), slot_coolDown)] /\
  aftInitF (disconnect c2 i2) = aftInitF i ++ [(S (S (S n)), slot_thermalize)].
Proof.
  intros (H1 & H2 & H3 & H4). cbv zeta. unfold connect. cbv zeta. cbn [fst snd].
  unfold disconnect.
  cbn [runInit recalc1 recalc2 aftInitF next_connection
       _initialize _heatUp _coolDown _thermalize].
  repeat split; apply disconnect_last.
  - eapply signal_below_weaken; [ apply (signal_below_connect _ _ _ _ H1) | ]; lia.
  - eapply signal_below_weaken; [ apply (signal_below_connect _ _ _ _ H2) | ]; lia.
  - eapply signal_below_weaken; [ apply (signal_below_connect _ _ _ _ H3) | ]; lia.
  - eapply signal_below_weaken; [ apply (signal_below_connect _ _ _ _ H4) | ]; lia.
Qed.

Lemma connect_twice_leaves_slots_witness :
  let i := mkIntegrator [(0%nat, slot_foreign 1)] [] [] [(1%nat, slot_foreign 1)] 2 in
  let c1 := fst (connect no_connections i) in
  let i1 := snd (connect no_connections i) in
  aftInitF (disconnect (fst (connect c1 i1)) (snd (connect c1 i1))) =
  [(1%nat, slot_foreign 1); (5%nat, slot_thermalize)].
Proof.
  cbv zeta.
  apply (connect_twice_leaves_slots no_connections
           (mkIntegrator [(0%nat, slot_foreign 1)] [] [] [(1%nat, slot_foreign 1)] 2)
           example_integrator_numbered).
Defined.
